(** * wandb-results: the report pipeline of [wandb_results.py]

    A shallow embedding of the run filter ([filter_runs]), the
    constant-column pruner ([remove_constant_columns]), the column title
    mapper ([get_columns_mapper]) and the report assembler ([main]), with
    the properties the specification states about them.

    Modelling conventions.
    - A Python [str] is a sequence of Unicode code points, here [list N].
      The string methods the script calls ([replace], [title], [lower],
      [startswith], [in]) follow CPython's algorithms.  The case tables
      cover ASCII and the two code points U+0130 and U+0307; every other
      code point is taken as uncased and unchanged, and the general
      theorems about case are stated for ASCII names only.
    - Floating point is not modelled: the float type and its operations
      (printing, rounding, comparison) are the fields of a class, and the
      theorems hold for every instance.
    - A Python [dict] is an association list in insertion order.
    - A pandas [DataFrame] is a list of row labels and a list of named
      columns; a raised exception is the [Raise] case of [result]. *)

From Equations Require Import Equations.
From Stdlib Require Import ZArith NArith Lia Ascii Sorted.
From Stdlib Require String.
From stdpp Require Import base gmap strings list sorting pretty.

(** ** Python strings *)

Abbreviation str := (list N).

(** The code points of an ASCII literal. *)
Definition py (s : string) : str :=
  N_of_ascii <$> String.list_ascii_of_string s.

Module Unicode.

Definition is_ascii (c : N) : bool := (c <? 128)%N.
Definition is_ascii_upper (c : N) : bool := ((65 <=? c) && (c <=? 90))%N.
Definition is_ascii_lower (c : N) : bool := ((97 <=? c) && (c <=? 122))%N.

(** U+0130 LATIN CAPITAL LETTER I WITH DOT ABOVE and U+0307 COMBINING DOT
    ABOVE: the first is cased and lower-cases to the two code points
    U+0069 U+0307, the second is not cased. *)
Definition I_dot : N := 304.
Definition combining_dot : N := 775.

(** [_PyUnicode_IsCased]. *)
Definition is_cased (c : N) : bool :=
  is_ascii_upper c || is_ascii_lower c || (c =? I_dot)%N.

(** [_PyUnicode_ToLowerFull]. *)
Definition to_lower (c : N) : str :=
  if is_ascii_upper c then [(c + 32)%N]
  else if (c =? I_dot)%N then [105%N; combining_dot]
  else [c].

(** [_PyUnicode_ToTitleFull]. *)
Definition to_title (c : N) : str :=
  if is_ascii_lower c then [(c - 32)%N] else [c].

End Unicode.

(** The ASCII case operations on one code point, and the names the
    statements about titles are restricted to. *)
Definition lower1 (c : N) : N :=
  if Unicode.is_ascii_upper c then (c + 32)%N else c.
Definition upper1 (c : N) : N :=
  if Unicode.is_ascii_lower c then (c - 32)%N else c.

(** A string with its ASCII letters in lower case. *)
Definition skeleton (s : str) : str := lower1 <$> s.

Definition is_ascii_str (s : str) : Prop := Forall (λ c : N, N.lt c 128) s.

(** No path separator and no underscore. *)
Definition no_separator (s : str) : Prop := (47%N ∉ s) ∧ (95%N ∉ s).

(** The name with its separators turned into spaces. *)
Definition spaced (s : str) : str :=
  (λ c, if decide (c = 47%N ∨ c = 95%N) then 32%N else c) <$> s.

(** [s.lower()]. *)
Definition str_lower (s : str) : str := s ≫= Unicode.to_lower.

(** [s.title()], CPython's [do_title]: a character that follows a cased
    one is lower-cased, any other is title-cased. *)
Fixpoint title_from (previous_is_cased : bool) (s : str) : str :=
  match s with
  | [] => []
  | c :: s' =>
      (if previous_is_cased then Unicode.to_lower c else Unicode.to_title c)
        ++ title_from (Unicode.is_cased c) s'
  end.

Definition str_title (s : str) : str := title_from false s.

(** [strip_prefix p s] is [Some r] when [s = p ++ r]. *)
Fixpoint strip_prefix (p s : str) : option str :=
  match p, s with
  | [], _ => Some s
  | _ :: _, [] => None
  | a :: p', b :: s' => if (a =? b)%N then strip_prefix p' s' else None
  end.

(** [s.startswith(p)]. *)
Definition str_startswith (s p : str) : bool :=
  match strip_prefix p s with Some _ => true | None => false end.

(** [sub in s]. *)
Fixpoint str_contains (sub s : str) : bool :=
  str_startswith s sub ||
  match s with
  | [] => false
  | _ :: s' => str_contains sub s'
  end.

Definition inspect {A} (a : A) : {b : A | a = b} := exist _ a eq_refl.

(** Left-to-right replacement of the non-overlapping occurrences of a
    non-empty [old]. *)
Equations? replace_from (old new : str) (s : str) : str by wf (length s) lt :=
  replace_from old new [] := [];
  replace_from old new (c :: s') with inspect (strip_prefix old (c :: s')) := {
    | exist _ (Some rest) _ with old := {
        | [] := c :: replace_from old new s'
        | _ :: _ := new ++ replace_from old new rest };
    | exist _ None _ := c :: replace_from old new s' }.
Proof.
  all: try (simpl; lia).
  assert (Hlen : ∀ p s r, strip_prefix p s = Some r →
                          length s = (length p + length r)%nat).
  { induction p as [|a p IH]; intros [|b s] r; simpl; intros Hp;
      try congruence.
    - by inversion Hp.
    - by inversion Hp.
    - destruct (a =? b)%N; [|discriminate]. by rewrite (IH _ _ Hp). }
  apply Hlen in e. simpl in *. lia.
Qed.

(** [s.replace(old, new)]; with an empty [old], Python puts [new] before
    every character and at the end. *)
Definition str_replace (s old new : str) : str :=
  match old with
  | [] => new ++ (s ≫= λ c, c :: new)
  | _ :: _ => replace_from old new s
  end.

(** ** Exceptions *)

Inductive exn :=
| KeyError (k : str)        (* a missing dict key or column name *)
| KeyError_label (l : nat)  (* a missing row label *)
| TypeError
| NoRunsFound.              (* "No runs found for given filters. ..." *)

Inductive result (A : Type) :=
| Ok (a : A)
| Raise (e : exn).
Arguments Ok {A} a.
Arguments Raise {A} e.

#[global] Instance result_ret : MRet result := λ A, Ok.
#[global] Instance result_bind : MBind result := λ A B f m,
  match m with Ok a => f a | Raise e => Raise e end.

(** ** Values *)

(** The floats of the host language.  [float_round d x] is the rounding of
    [x] to [d] decimals, [float_str] is [str], [float_leb] is [<=] on
    numbers (NaN is not a [float] here, see [VNaN]). *)
Class PyFloat := {
  float : Type;
  float_str : float → str;
  float_round : Z → float → float;
  float_of_int : Z → float;
  float_leb : float → float → bool;
  float_leb_total x y : float_leb x y = true ∨ float_leb y x = true;
  float_leb_trans x y z :
    float_leb x y = true → float_leb y z = true → float_leb x z = true;
}.

Section Values.
Context `{PyFloat}.

(** The scalars found in a run's config and summary and in the cells of a
    table.  [VNaN] is the float NaN, which pandas also puts in the cells
    a row has no key for. *)
Inductive Value :=
| VNone
| VBool (b : bool)
| VInt (z : Z)
| VFloat (x : float)
| VNaN
| VStr (s : str).

(** [str(v)]. *)
Definition py_str (v : Value) : str :=
  match v with
  | VNone => py "None"
  | VBool true => py "True"
  | VBool false => py "False"
  | VInt z => py (pretty z)
  | VFloat x => float_str x
  | VNaN => py "nan"
  | VStr s => s
  end.

(** [isinstance(v, float)]. *)
Definition is_float (v : Value) : bool :=
  match v with VFloat _ | VNaN => true | _ => false end.

Definition is_number (v : Value) : bool :=
  match v with VInt _ | VFloat _ | VNaN => true | _ => false end.

Definition value_of_optstr (o : option str) : Value :=
  match o with Some s => VStr s | None => VNone end.

End Values.

(** ** Dictionaries, in insertion order *)

Section Dict.
Context {V : Type}.

Fixpoint dict_get (k : str) (d : list (str * V)) : option V :=
  match d with
  | [] => None
  | (k', v) :: d' => if decide (k' = k) then Some v else dict_get k d'
  end.

(** [k in d]. *)
Definition dict_has (k : str) (d : list (str * V)) : bool :=
  match dict_get k d with Some _ => true | None => false end.

(** [d[k] = v]: an existing key keeps its place. *)
Fixpoint dict_set (k : str) (v : V) (d : list (str * V)) : list (str * V) :=
  match d with
  | [] => [(k, v)]
  | (k', v') :: d' =>
      if decide (k' = k) then (k, v) :: d' else (k', v') :: dict_set k v d'
  end.

(** [d.update(e)]. *)
Definition dict_update (d e : list (str * V)) : list (str * V) :=
  foldl (λ acc kv, dict_set kv.1 kv.2 acc) d e.

(** [d[k]], raising [KeyError]. *)
Definition dict_item (k : str) (d : list (str * V)) : result V :=
  match dict_get k d with Some v => Ok v | None => Raise (KeyError k) end.

Definition dict_keys (d : list (str * V)) : list str := d.*1.

End Dict.

(** ** Runs and tables *)

Section Model.
Context `{PyFloat}.

(** A run record of the tracking service; [group] and [job_type] are
    [None] when the experimenter did not set them. *)
Record Run := {
  group : option str;
  job_type : option str;
  name : str;
  config : list (str * Value);
  summary : list (str * Value);
}.

(** A table: the row labels and the named columns, every column holding
    one cell per label. *)
Record DataFrame := {
  index : list nat;
  data : list (str * list Value);
}.

(** [df.columns], [len(df)]. *)
Definition columns (df : DataFrame) : list str := (data df).*1.
Definition nrows (df : DataFrame) : nat := length (index df).

(** The invariants of a table: every column has one cell per row, and
    (for the tables [pd.DataFrame] builds from dicts) no two columns have
    the same name. *)
Definition aligned (df : DataFrame) : Prop :=
  ∀ c, c ∈ data df → length c.2 = nrows df.

Definition well_formed (df : DataFrame) : Prop :=
  NoDup (columns df) ∧ aligned df.

(** The column names of [pd.DataFrame(rows)]: the keys of the rows, in
    the order they are first met. *)
Definition all_keys (rows : list (list (str * Value))) : list str :=
  foldl (λ acc row,
           foldl (λ acc k, if decide (k ∈ acc) then acc else acc ++ [k])
                 acc (dict_keys row))
        [] rows.

Definition cell (k : str) (row : list (str * Value)) : Value :=
  default VNaN (dict_get k row).

(** The dtype pandas infers for a column of Python objects
    ([maybe_convert_objects]): integers alone give [Int64]; integers,
    floats and missing values together give [Float64]; booleans alone
    give [Bool]; anything else stays a column of objects.  Integers
    outside 64 bits are not modelled. *)
Inductive dtype := Int64 | Float64 | Bool | Object.

Definition is_int (v : Value) : bool :=
  match v with VInt _ => true | _ => false end.
Definition is_bool (v : Value) : bool :=
  match v with VBool _ => true | _ => false end.
Definition is_number_or_none (v : Value) : bool :=
  match v with VInt _ | VFloat _ | VNaN | VNone => true | _ => false end.

Definition column_dtype (cells : list Value) : dtype :=
  if forallb is_number_or_none cells then
    if existsb is_number cells then
      if forallb is_int cells then Int64 else Float64
    else Object
  else if forallb is_bool cells then Bool
  else Object.

Definition to_float64 (v : Value) : Value :=
  match v with
  | VInt z => VFloat (float_of_int z)
  | VNone => VNaN
  | _ => v
  end.

Definition convert_column (cells : list Value) : list Value :=
  match column_dtype cells with
  | Float64 => to_float64 <$> cells
  | _ => cells
  end.

(** [pd.DataFrame(rows)] for a list of dicts: labels [0 .. n-1], a column
    per key, NaN where a row lacks the key, each column converted to its
    dtype. *)
Definition pd_DataFrame (rows : list (list (str * Value))) : DataFrame :=
  {| index := seq 0 (length rows);
     data := (λ k, (k, convert_column (cell k <$> rows))) <$> all_keys rows |}.

(** [df[col]]. *)
Definition df_col (df : DataFrame) (col : str) : result (list Value) :=
  dict_item col (data df).

(** [df.drop(columns=names)] for names that are columns of [df]. *)
Definition drop_columns (names : list str) (df : DataFrame) : DataFrame :=
  {| index := index df;
     data := filter (λ c, c.1 ∉ names) (data df) |}.

(** *** [remove_constant_columns] *)

(** [set(df[col].apply(str))]. *)
Definition unique_str_values (cells : list Value) : gset str :=
  list_to_set (py_str <$> cells).

Definition is_constant (df : DataFrame) (col : str) : bool :=
  match dict_get col (data df) with
  | Some cells => bool_decide (size (unique_str_values cells) = 1)
  | None => false
  end.

Definition constant_columns (df : DataFrame) : list str :=
  filter (λ col, is_constant df col = true) (columns df).

Definition remove_constant_columns (df : DataFrame) : DataFrame :=
  drop_columns (constant_columns df) df.

(** *** [filter_runs] *)

Section FilterRuns.
Variables (group_filter jt_filter : option str).
Variables (config_filter results_filter : list str).
Variable (include_timestamp : bool).

(** Line 29.  A filter is an [Optional[str]]; Python's [==] between a
    string and [None] is [False]. *)
Definition run_matches (run : Run) : bool :=
  (bool_decide (group run = group_filter)
   || bool_decide (group_filter = Some []))
  && (bool_decide (job_type run = jt_filter)
      || bool_decide (jt_filter = Some [])).

(** Lines 38-39. *)
Definition public_config (run : Run) : list (str * Value) :=
  foldl (λ acc kv,
           if str_startswith kv.1 (py "_") then acc
           else dict_set kv.1 kv.2 acc)
        [] (config run).

(** Line 41: [config_filter and config_filter[0].lower() != "different"]. *)
Definition selects_named : bool :=
  match config_filter with
  | [] => false
  | c :: _ => negb (bool_decide (str_lower c = py "different"))
  end.

(** Line 80: [config_filter and config_filter[0].lower() == 'different']. *)
Definition prune_mode : bool :=
  match config_filter with
  | [] => false
  | c :: _ => bool_decide (str_lower c = py "different")
  end.

(** Lines 42-43. *)
Fixpoint copy_named (params : list str) (config run_params : list (str * Value))
  : result (list (str * Value)) :=
  match params with
  | [] => Ok run_params
  | config_param :: params' =>
      v ← dict_item config_param config;
      copy_named params' config (dict_set config_param v run_params)
  end.

(** Lines 41-45. *)
Definition copy_config (config run_params : list (str * Value))
  : result (list (str * Value)) :=
  if selects_named then copy_named config_filter config run_params
  else Ok (dict_update run_params config).

(** Lines 57-66: the row and [valid_result] after the loop. *)
Fixpoint copy_results (params : list str) (summary run_params : list (str * Value))
    (valid_result : bool) : list (str * Value) * bool :=
  match params with
  | [] => (run_params, valid_result)
  | summary_param :: params' =>
      match dict_get summary_param summary with
      | Some value =>
          copy_results params' summary
            (dict_set summary_param value run_params) true
      | None => copy_results params' summary run_params valid_result
      end
  end.

(** Lines 56-73: the metrics step; [None] when the run is skipped. *)
Definition copy_summary (summary run_params : list (str * Value))
  : result (option (list (str * Value))) :=
  match results_filter with
  | _ :: _ =>
      let '(run_params, valid_result) :=
        copy_results results_filter summary run_params false in
      if valid_result then
        run_params ←
          (if include_timestamp then
             ts ← dict_item (py "_timestamp") summary;
             Ok (dict_set (py "timestamp") ts run_params)
           else Ok run_params);
        Ok (Some run_params)
      else Ok None
  | [] => Ok (Some (dict_update run_params summary))
  end.

(** Lines 31-34. *)
Definition identity_fields (run : Run) : list (str * Value) :=
  let run_params := [] in
  let run_params := dict_set (py "group") (value_of_optstr (group run)) run_params in
  let run_params := dict_set (py "job_type") (value_of_optstr (job_type run)) run_params in
  let run_params := dict_set (py "run_name") (VStr (name run)) run_params in
  run_params.

(** Lines 31-73 for one matching run: the row appended to [output], or
    [None] when the run is skipped. *)
Definition run_row (run : Run) : result (option (list (str * Value))) :=
  run_params ← copy_config (public_config run) (identity_fields run);
  copy_summary (summary run) run_params.

(** Lines 28-73: the loop over the runs.  The console output of
    [show_keys] is not part of the model. *)
Fixpoint filter_loop (runs : list Run) (output : list (list (str * Value)))
  : result (list (list (str * Value))) :=
  match runs with
  | [] => Ok output
  | run :: runs' =>
      if run_matches run then
        row ← run_row run;
        filter_loop runs'
          (match row with Some r => output ++ [r] | None => output end)
      else filter_loop runs' output
  end.

(** Lines 26-82. *)
Definition filter_runs (runs : list Run) : result DataFrame :=
  output ← filter_loop runs [];
  if (length output =? 0)%nat then Raise NoRunsFound
  else
    let df := pd_DataFrame output in
    if prune_mode then Ok (remove_constant_columns df) else Ok df.

(** *** The quantities the specification speaks of *)

(** A run passes the results filter when no filter is given or one of
    the requested metrics is in its summary. *)
Definition passes_results (run : Run) : bool :=
  match results_filter with
  | [] => true
  | _ :: _ => existsb (λ p, dict_has p (summary run)) results_filter
  end.

(** The number of runs that match the group and job-type filters and
    pass the results filter. *)
Definition expected_rows (runs : list Run) : nat :=
  length (filter (λ run, run_matches run && passes_results run = true) runs).

(** The keys the row of a run is built from are there: the named config
    keys when the config filter names keys, and [_timestamp] when the
    timestamp is copied. *)
Definition keys_present (run : Run) : bool :=
  (negb selects_named
   || forallb (λ k, dict_has k (public_config run)) config_filter)
  && (negb (include_timestamp
            && match results_filter with [] => false | _ :: _ => true end
            && passes_results run)
      || dict_has (py "_timestamp") (summary run)).

End FilterRuns.

(** *** [get_columns_mapper] *)

(** Lines 115-121 for one column name. *)
Definition column_title (col : str) : str :=
  let renamed_col := str_replace col (py "/") (py " ") in
  let renamed_col := str_replace renamed_col (py "_") (py " ") in
  let renamed_col := str_title renamed_col in
  let renamed_col := str_replace renamed_col (py "Lr") (py "LR") in
  let renamed_col := str_replace renamed_col (py "Nn") (py "NN") in
  renamed_col.

Definition get_columns_mapper (df : DataFrame) : list (str * str) :=
  foldl (λ columns_mapper col, dict_set col (column_title col) columns_mapper)
        [] (columns df).

(** [df.rename(columns=mapper)]. *)
Definition rename_columns (mapper : list (str * str)) (df : DataFrame)
  : DataFrame :=
  {| index := index df;
     data := (λ c, (default c.1 (dict_get c.1 mapper), c.2)) <$> data df |}.

(** *** [DataFrame.nlargest] *)

(** The order of two cells of a column of the given dtype; a missing
    value is below every number. *)
Definition int_key (v : Value) : Z :=
  match v with VInt z => z | VBool b => Z.b2z b | _ => 0%Z end.

Definition float_key (v : Value) : option float :=
  match v with
  | VFloat x => Some x
  | VInt z => Some (float_of_int z)
  | _ => None
  end.

Definition cell_leb (dt : dtype) (v w : Value) : bool :=
  match dt with
  | Int64 | Bool => (int_key v <=? int_key w)%Z
  | Float64 =>
      match float_key v, float_key w with
      | None, _ => true
      | Some _, None => false
      | Some x, Some y => float_leb x y
      end
  | Object => true
  end.

Section Ranking.
Variable leb : Value → Value → bool.

(** Insertion of a position and its key in a list in descending order
    of keys, after the entries with an equal key. *)
Fixpoint insert_desc (x : nat * Value) (l : list (nat * Value))
  : list (nat * Value) :=
  match l with
  | [] => [x]
  | y :: l' => if leb x.2 y.2 then y :: insert_desc x l' else x :: l
  end.

(** The order of the entries (position, key) of a ranking. *)
Definition entry_before (x y : nat * Value) : Prop :=
  leb y.2 x.2 = true ∧ (leb x.2 y.2 = true → x.1 < y.1).

(** The positions of [keys] by descending key; equal keys keep the
    order of their positions. *)
Definition rank_desc (keys : list Value) : list nat :=
  (foldl (λ acc x, insert_desc x acc) [] (zip (seq 0 (length keys)) keys)).*1.
End Ranking.

(** Position [i] is ranked before position [j]: its key is not the
    smaller one, and with equal keys it is the earlier position. *)
Definition ranked_before (leb : Value → Value → bool) (keys : list Value)
    (i j : nat) : Prop :=
  ∃ v w, keys !! i = Some v ∧ keys !! j = Some w
         ∧ leb w v = true ∧ (leb v w = true → i < j).

Definition select {A} (positions : list nat) (l : list A) : list A :=
  omap (λ i, l !! i) positions.

(** [df.take(positions)]: the rows at the positions, with their labels. *)
Definition take_rows (positions : list nat) (df : DataFrame) : DataFrame :=
  {| index := select positions (index df);
     data := (λ c, (c.1, select positions c.2)) <$> data df |}.

(** [df.nlargest(n, column)] with the default [keep='first'], after the
    pandas documentation: the first [n] rows in descending order of the
    column, the first occurrences kept on ties; no row for [n <= 0];
    [TypeError] for a column of objects. *)
Definition nlargest (n : Z) (column : str) (df : DataFrame) : result DataFrame :=
  cells ← df_col df column;
  match column_dtype cells with
  | Object => Raise TypeError
  | dt => Ok (take_rows (take (Z.to_nat n) (rank_desc (cell_leb dt) cells)) df)
  end.

(** *** The rounding stage (lines 147-164) *)

(** [series[label]] for a series with integer labels. *)
Definition series_at (labels : list nat) (cells : list Value) (label : nat)
  : result Value :=
  match list_find (λ l, l = label) labels with
  | Some (i, _) =>
      match cells !! i with
      | Some v => Ok v
      | None => Raise (KeyError_label label)
      end
  | None => Raise (KeyError_label label)
  end.

Definition round_value (decimals : Z) (v : Value) : Value :=
  match v with
  | VFloat x => VFloat (float_round decimals x)
  | _ => v
  end.

(** [series.round(decimals)]; pandas refuses a column of objects. *)
Definition series_round (decimals : Z) (cells : list Value)
  : result (list Value) :=
  match column_dtype cells with
  | Object => Raise TypeError
  | _ => Ok (round_value decimals <$> cells)
  end.

(** [df[col] = cells] for a column of [df]. *)
Definition set_col (col : str) (cells : list Value) (df : DataFrame)
  : DataFrame :=
  {| index := index df;
     data := (λ c, if decide (c.1 = col) then (col, cells) else c) <$> data df |}.

(** One arm of the [if]/[elif] chain: [marker in name and
    isinstance(df[col][0], float)]; [first] is [df[col][0]], evaluated
    only when the marker is found. *)
Definition elif (marker_found : bool) (first : result Value) (decimals : Z)
    (otherwise : result (option Z)) : result (option Z) :=
  if marker_found then
    v ← first; if is_float v then Ok (Some decimals) else otherwise
  else otherwise.

(** The decimals the chain picks for a column, [None] when no arm fires. *)
Definition round_decimals (col : str) (first : result Value)
  : result (option Z) :=
  elif (str_contains (py "accuracy") col) first 2 (
  elif (str_contains (py "f1_score") col) first 3 (
  elif (str_contains (py "lr") col) first 6 (
  elif (str_contains (py "ssim") (str_lower col)) first 4 (
  elif (str_contains (py "psnr") (str_lower col)) first 3 (
  elif (str_contains (py "sam") (str_lower col)) first 3 (
  elif (str_contains (py "ergas") (str_lower col)) first 3 (
  elif (str_contains (py "timestamp") (str_lower col)) first 0 (
  Ok None)))))))).

(** The decimals of the first arm whose marker is found in the name. *)
Definition first_marker (col : str) : option Z :=
  if str_contains (py "accuracy") col then Some 2%Z
  else if str_contains (py "f1_score") col then Some 3%Z
  else if str_contains (py "lr") col then Some 6%Z
  else if str_contains (py "ssim") (str_lower col) then Some 4%Z
  else if str_contains (py "psnr") (str_lower col) then Some 3%Z
  else if str_contains (py "sam") (str_lower col) then Some 3%Z
  else if str_contains (py "ergas") (str_lower col) then Some 3%Z
  else if str_contains (py "timestamp") (str_lower col) then Some 0%Z
  else None.

(** The stage on one column taken alone: the column [c] of a table with
    the given labels, rounded or not. *)
Definition round_entry (labels : list nat) (c : str * list Value)
  : result (str * list Value) :=
  match first_marker c.1 with
  | None => Ok c
  | Some d =>
      v ← series_at labels c.2 0;
      if is_float v then rounded ← series_round d c.2; Ok (c.1, rounded)
      else Ok c
  end.

Definition round_column (df : DataFrame) (col : str) : result DataFrame :=
  decimals ← round_decimals col (cells ← df_col df col;
                                  series_at (index df) cells 0);
  match decimals with
  | Some d =>
      cells ← df_col df col;
      rounded ← series_round d cells;
      Ok (set_col col rounded df)
  | None => Ok df
  end.

Definition round_columns (df : DataFrame) : result DataFrame :=
  foldl (λ acc col, df ← acc; round_column df col) (Ok df) (columns df).

(** *** [parse_opt] and [main] *)

Record Opt := {
  project : str;
  group_filter : str;
  jt_filter : str;
  config_filter : list str;
  results_filter : list str;
  save_file : str;
  best_metric : str;
  n_largest : Z;
  show_keys : bool;
  sort_by : list str;
  include_timestamp : bool;
}.

(** The options of an empty command line. *)
Definition parse_opt_defaults : Opt :=
  {| project := py "au-phd/Cow-ID";
     group_filter := [];
     jt_filter := [];
     config_filter := [];
     results_filter := [];
     save_file := py "results.csv";
     best_metric := [];
     n_largest := 5;
     show_keys := false;
     sort_by := [];
     include_timestamp := false |}.

Section Main.
(** The runs the service returns for a project. *)
Variable api_runs : str → list Run.
(** [df.sort_values(by=..., ascending=False)].  The call leaves the
    sorting algorithm to pandas' default, "quicksort", for which pandas
    promises no order among rows with equal keys; the pipeline is
    parametric in it. *)
Variable sort_values_descending : list str → DataFrame → result DataFrame.

(** Lines 131-168: the table handed to [to_csv]. *)
Definition report (opt : Opt) : result DataFrame :=
  let runs := api_runs (project opt) in
  df ← filter_runs (Some (group_filter opt)) (Some (jt_filter opt))
         (config_filter opt) (results_filter opt) (include_timestamp opt)
         runs;
  df ← (match sort_by opt with
        | [] => Ok df
        | _ :: _ => sort_values_descending (sort_by opt) df
        end);
  df ← (match best_metric opt with
        | [] => Ok df
        | _ :: _ => nlargest (n_largest opt) (best_metric opt) df
        end);
  df ← round_columns df;
  let columns_mapper := get_columns_mapper df in
  Ok (rename_columns columns_mapper df).

(** [main]: the files before and after, and the outcome.  [to_csv]
    writes the table under [save_file]. *)
Definition main (opt : Opt) (files : gmap str DataFrame)
  : gmap str DataFrame * result () :=
  match report opt with
  | Ok df => (<[save_file opt := df]> files, Ok ())
  | Raise e => (files, Raise e)
  end.
End Main.

End Model.

(** ** A float instance for the examples

    Fixed-point numbers with six decimals: the integer [x] stands for
    [x / 10^6].  Rounding is to the nearest, ties to even. *)
Module Decimal.

Definition round (decimals : Z) (x : Z) : Z :=
  if (6 <=? decimals)%Z then x
  else
    let q := (10 ^ (6 - decimals))%Z in
    let k := (x / q)%Z in
    let r := (x mod q)%Z in
    if (2 * r <? q)%Z then (k * q)%Z
    else if (q <? 2 * r)%Z then ((k + 1) * q)%Z
    else if Z.even k then (k * q)%Z else ((k + 1) * q)%Z.

Fixpoint strip_zeros (fuel : nat) (f : Z) : Z :=
  match fuel with
  | O => f
  | S fuel' => if (f mod 10 =? 0)%Z then strip_zeros fuel' (f / 10) else f
  end.

(** The sign, the integer part, a point and the decimals. *)
Definition to_str (x : Z) : str :=
  let a := Z.abs x in
  let frac := (1000000 + a mod 1000000)%Z in
  (if (x <? 0)%Z then py "-" else [])
    ++ py (pretty (a / 1000000)%Z) ++ py "."
    ++ (if (a mod 1000000 =? 0)%Z then py "0"
        else drop 1 (py (pretty (strip_zeros 6 frac)))).

Lemma decimal_leb_total (x y : Z) : (x <=? y)%Z = true ∨ (y <=? x)%Z = true.
Proof. destruct (Z.leb_spec x y), (Z.leb_spec y x); auto; lia. Qed.

Lemma decimal_leb_trans (x y z : Z) :
  (x <=? y)%Z = true → (y <=? z)%Z = true → (x <=? z)%Z = true.
Proof. rewrite !Z.leb_le. lia. Qed.

#[global] Instance floats : PyFloat :=
  {| float := Z;
     float_str := to_str;
     float_round := round;
     float_of_int z := (z * 1000000)%Z;
     float_leb := Z.leb;
     float_leb_total := decimal_leb_total;
     float_leb_trans := decimal_leb_trans |}.

End Decimal.

(** ** Example runs and tables *)

Module Examples.

(** Two finished runs of group "A", a run of group "B", and a run of
    group "A" without any metric yet. *)
Definition run_a1 : Run :=
  {| group := Some (py "A"); job_type := Some (py "t"); name := py "a1";
     config := [(py "lr", VFloat 10000%Z); (py "_wandb", VNone)];
     summary := [(py "ssim", VFloat 823149%Z);
                 (py "_timestamp", VFloat 100000000%Z)] |}.

Definition run_a2 : Run :=
  {| group := Some (py "A"); job_type := Some (py "t"); name := py "a2";
     config := [(py "lr", VFloat 20000%Z)];
     summary := [(py "ssim", VFloat 910250%Z);
                 (py "_timestamp", VFloat 200000000%Z)] |}.

Definition run_b : Run :=
  {| group := Some (py "B"); job_type := Some (py "t"); name := py "b";
     config := [(py "lr", VFloat 10000%Z)];
     summary := [(py "loss", VFloat 500000%Z)] |}.

Definition run_unfinished : Run :=
  {| group := Some (py "A"); job_type := Some (py "t"); name := py "u";
     config := [(py "lr", VFloat 10000%Z)];
     summary := [] |}.

Definition runs : list Run := [run_a1; run_b; run_unfinished; run_a2].

Definition ssim_cells : list Value :=
  [VFloat 823149%Z; VNaN; VFloat 910250%Z; VFloat 823149%Z].

Definition table : DataFrame :=
  {| index := [0; 1; 2; 3]%nat;
     data := [(py "group", [VStr (py "A"); VStr (py "A"); VStr (py "A"); VStr (py "A")]);
              (py "run_name", [VStr (py "a1"); VStr (py "u"); VStr (py "a2"); VStr (py "a3")]);
              (py "ssim", ssim_cells)] |}.

(** [--group_filter C --results_filter ssim]. *)
Definition opt_group_c : Opt :=
  {| project := py "au-phd/Cow-ID";
     group_filter := py "C";
     jt_filter := [];
     config_filter := [];
     results_filter := [py "ssim"];
     save_file := py "results.csv";
     best_metric := [];
     n_largest := 5;
     show_keys := false;
     sort_by := [];
     include_timestamp := false |}.

Definition one_row_table : DataFrame :=
  {| index := [0%nat];
     data := [(py "group", [VStr (py "A")]);
              (py "run_name", [VStr (py "a1")]);
              (py "ssim", [VFloat 823149%Z])] |}.

End Examples.

(** ** More example inputs *)

Module MoreExamples.

(** A table without rows. *)
Definition empty_table : DataFrame :=
  {| index := []; data := [(py "lr", []); (py "ssim", [])] |}.

(** The rows kept by a selection that dropped the row labelled 0. *)
Definition table_without_label_0 : DataFrame :=
  {| index := [1%nat];
     data := [(py "run_name", [VStr (py "a2")]);
              (py "ssim", [VFloat 910250%Z])] |}.

(** A table whose column names hold no marker. *)
Definition plain_table : DataFrame :=
  {| index := [0; 1]%nat;
     data := [(py "group", [VStr (py "A"); VStr (py "A")]);
              (py "epochs", [VInt 10; VInt 20])] |}.

(** [--group_filter A --results_filter ssim --best_metric ssim
    --n_largest 1]. *)
Definition opt_best_ssim : Opt :=
  {| project := py "au-phd/Cow-ID";
     group_filter := py "A";
     jt_filter := [];
     config_filter := [];
     results_filter := [py "ssim"];
     save_file := py "results.csv";
     best_metric := py "ssim";
     n_largest := 1;
     show_keys := false;
     sort_by := [];
     include_timestamp := false |}.

(** [--group_filter A --results_filter ssim --best_metric loss]. *)
Definition opt_best_loss : Opt :=
  {| project := py "au-phd/Cow-ID";
     group_filter := py "A";
     jt_filter := [];
     config_filter := [];
     results_filter := [py "ssim"];
     save_file := py "results.csv";
     best_metric := py "loss";
     n_largest := 5;
     show_keys := false;
     sort_by := [];
     include_timestamp := false |}.

End MoreExamples.

(** * Properties *)

(** ** Dictionaries *)

Section DictFacts.
Context {V : Type}.
Implicit Types (d e : list (str * V)) (k : str).

Lemma dict_get_set k k' v d :
  dict_get k (dict_set k' v d) = if decide (k' = k) then Some v else dict_get k d.
Proof.
  induction d as [|[k0 v0] d IH]; simpl.
  - by destruct (decide (k' = k)).
  - destruct (decide (k0 = k')) as [->|Hne]; simpl.
    + by destruct (decide (k' = k)).
    + destruct (decide (k0 = k)) as [->|Hne'].
      * by rewrite decide_False.
      * done.
Qed.

Lemma dict_get_None k d : dict_get k d = None ↔ k ∉ dict_keys d.
Proof.
  unfold dict_keys. induction d as [|[k0 v0] d IH]; simpl.
  - split; [intros _; apply not_elem_of_nil | done].
  - rewrite not_elem_of_cons. destruct (decide (k0 = k)) as [->|Hne].
    + split; [done | by intros [? _]].
    + rewrite IH. split; [by intros ?; split | by intros [_ ?]].
Qed.

Lemma dict_get_elem_of k v d :
  NoDup (dict_keys d) → (k, v) ∈ d → dict_get k d = Some v.
Proof.
  unfold dict_keys. induction d as [|[k0 v0] d IH]; simpl; intros Hnd Hin.
  - by apply elem_of_nil in Hin.
  - apply NoDup_cons in Hnd as [Hk0 Hnd].
    apply elem_of_cons in Hin as [Heq|Hin].
    + inversion Heq; subst. by rewrite decide_True.
    + destruct (decide (k0 = k)) as [->|Hne]; [|by apply IH].
      exfalso. apply Hk0. apply list_elem_of_fmap. by exists (k, v).
Qed.

Lemma dict_get_Some_elem_of k v d : dict_get k d = Some v → (k, v) ∈ d.
Proof.
  induction d as [|[k0 v0] d IH]; simpl; [done|].
  destruct (decide (k0 = k)) as [->|Hne]; intros Hg.
  - inversion Hg; subst. apply elem_of_cons; by left.
  - apply elem_of_cons; right; by apply IH.
Qed.

(** [d.update(e)] for a dict [e]: the entries of [e] win. *)
Lemma dict_get_update k d e :
  NoDup (dict_keys e) →
  dict_get k (dict_update d e) =
    match dict_get k e with Some v => Some v | None => dict_get k d end.
Proof.
  unfold dict_update, dict_keys. revert d.
  induction e as [|[k0 v0] e IH]; simpl; intros d Hnd; [done|].
  apply NoDup_cons in Hnd as [Hk0 Hnd].
  rewrite IH by done. rewrite dict_get_set.
  destruct (decide (k0 = k)) as [->|Hne]; [|done].
  apply dict_get_None in Hk0. by rewrite Hk0.
Qed.

End DictFacts.

(** ** The run filter *)

Section FilterFacts.
Context `{PyFloat}.
Implicit Types (gf jf : option str) (cf rf : list str) (ts : bool).

Local Abbreviation row := (list (str * Value)).

Lemma copy_results_valid params (summ rp : row) valid :
  (copy_results params summ rp valid).2
  = valid || existsb (λ p, dict_has p summ) params.
Proof.
  revert rp valid. induction params as [|p params IH]; intros rp valid; simpl.
  - by rewrite orb_false_r.
  - unfold dict_has at 1. destruct (dict_get p summ); rewrite IH; simpl.
    + by rewrite orb_true_r.
    + done.
Qed.

Lemma copy_named_Ok params (conf rp : row) :
  forallb (λ k, dict_has k conf) params = true ↔
  ∃ rp', copy_named params conf rp = Ok rp'.
Proof.
  revert rp. induction params as [|p params IH]; intros rp; simpl.
  - split; [by eexists | done].
  - unfold dict_item, dict_has at 1. destruct (dict_get p conf); simpl.
    + apply IH.
    + split; [done | by intros [? ?]].
Qed.

(** A run whose keys are present gives a row exactly when it passes the
    results filter; a run with a missing key raises. *)
Lemma copy_named_Raise params (conf rp : row) e :
  copy_named params conf rp = Raise e → ∃ k, e = KeyError k.
Proof.
  revert rp. induction params as [|p params IH]; intros rp; simpl; [done|].
  unfold dict_item. destruct (dict_get p conf); simpl.
  - apply IH.
  - intros [= <-]. by eexists.
Qed.

Lemma copy_summary_cases rf ts (summ rp : row) :
  let passes :=
    match rf with [] => true | _ :: _ => existsb (λ p, dict_has p summ) rf end in
  if negb (ts && match rf with [] => false | _ :: _ => true end && passes)
     || dict_has (py "_timestamp") summ
  then if passes then ∃ r, copy_summary rf ts summ rp = Ok (Some r)
       else copy_summary rf ts summ rp = Ok None
  else ∃ k, copy_summary rf ts summ rp = Raise (KeyError k).
Proof.
  unfold copy_summary. destruct rf as [|p rf']; cbv zeta.
  - rewrite andb_false_r. simpl. by eexists.
  - rewrite andb_true_r.
    pose proof (copy_results_valid (p :: rf') summ rp false) as Hv.
    rewrite orb_false_l in Hv.
    destruct (copy_results (p :: rf') summ rp false) as [rp'' valid].
    cbn [snd] in Hv. rewrite <- Hv.
    destruct valid; [|by rewrite andb_false_r].
    rewrite andb_true_r. destruct ts; simpl; [|by eexists].
    unfold dict_item, dict_has.
    destruct (dict_get (py "_timestamp") summ); simpl; by eexists.
Qed.

(** A run whose keys are present gives a row exactly when it passes the
    results filter; a run with a missing key raises [KeyError]. *)
Lemma run_row_cases cf rf ts run :
  if keys_present cf rf ts run then
    if passes_results rf run then ∃ r, run_row cf rf ts run = Ok (Some r)
    else run_row cf rf ts run = Ok None
  else ∃ k, run_row cf rf ts run = Raise (KeyError k).
Proof.
  unfold keys_present, run_row, copy_config.
  pose proof (copy_summary_cases rf ts (summary run)) as Hsum.
  cbv zeta in Hsum. fold (passes_results rf run) in Hsum.
  destruct (selects_named cf) eqn:Hsel; simpl.
  - destruct (forallb _ cf) eqn:Hall; simpl.
    + apply (copy_named_Ok _ _ (identity_fields run)) in Hall as [rp' ->].
      apply Hsum.
    + destruct (copy_named cf (public_config run) (identity_fields run))
        as [rp'|e] eqn:Hcn.
      * assert (forallb (λ k, dict_has k (public_config run)) cf = true)
          by (apply (copy_named_Ok _ _ (identity_fields run)); by eexists).
        congruence.
      * apply copy_named_Raise in Hcn as [k ->]. by exists k.
  - apply Hsum.
Qed.

Lemma run_row_Some cf rf ts run r :
  run_row cf rf ts run = Ok (Some r) → passes_results rf run = true.
Proof.
  intros Hr. pose proof (run_row_cases cf rf ts run) as Hc. rewrite Hr in Hc.
  destruct (keys_present cf rf ts run); [|by destruct Hc].
  by destruct (passes_results rf run).
Qed.

Lemma run_row_None cf rf ts run :
  run_row cf rf ts run = Ok None → passes_results rf run = false.
Proof.
  intros Hr. pose proof (run_row_cases cf rf ts run) as Hc. rewrite Hr in Hc.
  destruct (keys_present cf rf ts run); [|by destruct Hc].
  destruct (passes_results rf run); [by destruct Hc | done].
Qed.

Lemma expected_rows_cons gf jf rf run runs :
  expected_rows gf jf rf (run :: runs)
  = ((if run_matches gf jf run && passes_results rf run then 1 else 0)
     + expected_rows gf jf rf runs)%nat.
Proof.
  unfold expected_rows. rewrite filter_cons.
  destruct (run_matches gf jf run && passes_results rf run) eqn:E.
  - by rewrite decide_True.
  - by rewrite decide_False.
Qed.

(** The loop appends one row per run that matches and passes. *)
Lemma filter_loop_length gf jf cf rf ts runs output out :
  filter_loop gf jf cf rf ts runs output = Ok out →
  length out = (length output + expected_rows gf jf rf runs)%nat.
Proof.
  revert output. induction runs as [|run runs IH]; intros output; simpl.
  - intros [= <-]. unfold expected_rows. simpl. lia.
  - rewrite expected_rows_cons.
    destruct (run_matches gf jf run) eqn:Hm; simpl; [|apply IH].
    destruct (run_row cf rf ts run) as [[r|]|e] eqn:Hr; simpl; [| |done].
    + rewrite (run_row_Some _ _ _ _ _ Hr). intros Hl. apply IH in Hl.
      rewrite length_app in Hl. simpl in Hl. lia.
    + rewrite (run_row_None _ _ _ _ Hr). apply IH.
Qed.

(** The loop ends without an exception when no matching run lacks a key. *)
Lemma filter_loop_total gf jf cf rf ts runs output :
  (∀ run, run ∈ runs → run_matches gf jf run = true →
          keys_present cf rf ts run = true) →
  ∃ out, filter_loop gf jf cf rf ts runs output = Ok out.
Proof.
  revert output. induction runs as [|run runs IH]; intros output Hk; simpl.
  - by eexists.
  - assert (Htl : ∀ r, r ∈ runs → run_matches gf jf r = true →
                       keys_present cf rf ts r = true).
    { intros r Hr. apply Hk. apply elem_of_cons. by right. }
    destruct (run_matches gf jf run) eqn:Hm; [|by apply IH].
    pose proof (run_row_cases cf rf ts run) as Hc.
    rewrite (Hk run) in Hc by (done || apply elem_of_cons; by left).
    destruct (passes_results rf run).
    + destruct Hc as [r ->]. simpl. by apply IH.
    + rewrite Hc. simpl. by apply IH.
Qed.

(** A missing key of a matching run raises [KeyError]. *)
Lemma filter_loop_KeyError gf jf cf rf ts runs output :
  (∃ run, run ∈ runs ∧ run_matches gf jf run = true ∧
          keys_present cf rf ts run = false) →
  ∃ k, filter_loop gf jf cf rf ts runs output = Raise (KeyError k).
Proof.
  revert output. induction runs as [|run runs IH]; intros output.
  - intros (r & Hin & _). by apply elem_of_nil in Hin.
  - intros (r & Hin & Hm & Hk). simpl.
    destruct (run_matches gf jf run) eqn:Hm'.
    + pose proof (run_row_cases cf rf ts run) as Hc.
      destruct (keys_present cf rf ts run) eqn:Hk'.
      * assert (Hex : ∃ r, r ∈ runs ∧ run_matches gf jf r = true ∧
                            keys_present cf rf ts r = false).
        { apply elem_of_cons in Hin as [->|Hin]; [congruence|]. by exists r. }
        destruct (passes_results rf run).
        -- destruct Hc as [r' ->]. simpl. by apply IH.
        -- rewrite Hc. simpl. by apply IH.
      * destruct Hc as [k ->]. by exists k.
    + apply IH. apply elem_of_cons in Hin as [->|Hin]; [congruence|].
      by exists r.
Qed.

(** Runs that do not match have no effect. *)
Lemma filter_loop_matching gf jf cf rf ts runs output :
  filter_loop gf jf cf rf ts runs output
  = filter_loop gf jf cf rf ts
      (filter (λ run, run_matches gf jf run = true) runs) output.
Proof.
  revert output. induction runs as [|run runs IH]; intros output; [done|].
  rewrite filter_cons. simpl.
  destruct (run_matches gf jf run) eqn:Hm.
  - rewrite decide_True by done. simpl. rewrite Hm.
    destruct (run_row cf rf ts run) as [[r|]|e]; simpl; by rewrite ?IH.
  - rewrite decide_False by (by intros ?). apply IH.
Qed.

Lemma filter_loop_no_match gf jf cf rf ts runs output :
  (∀ run, run ∈ runs → run_matches gf jf run = false) →
  filter_loop gf jf cf rf ts runs output = Ok output.
Proof.
  revert output. induction runs as [|run runs IH]; intros output Hn; [done|].
  simpl. rewrite (Hn run) by (apply elem_of_cons; by left).
  apply IH. intros r Hr. apply Hn. apply elem_of_cons. by right.
Qed.

Lemma nrows_pd_DataFrame (rows : list row) :
  nrows (pd_DataFrame rows) = length rows.
Proof. unfold nrows, pd_DataFrame. simpl. apply length_seq. Qed.

Lemma nrows_remove_constant_columns df :
  nrows (remove_constant_columns df) = nrows df.
Proof. done. Qed.

(** What [filter_runs] returns, by the outcome of the loop. *)
Lemma filter_runs_unfold gf jf cf rf ts runs :
  filter_runs gf jf cf rf ts runs =
    match filter_loop gf jf cf rf ts runs [] with
    | Raise e => Raise e
    | Ok [] => Raise NoRunsFound
    | Ok output =>
        Ok (if prune_mode cf then remove_constant_columns (pd_DataFrame output)
            else pd_DataFrame output)
    end.
Proof.
  unfold filter_runs.
  destruct (filter_loop gf jf cf rf ts runs []) as [[|r out]|e]; simpl; try done.
  by destruct (prune_mode cf).
Qed.

End FilterFacts.

Section FilterClaims.
Context `{PyFloat}.
Implicit Types (gf jf : option str) (cf rf : list str) (ts : bool).

(** The loop ends with no row exactly when no matching run lacks a key
    and no matching run passes the results filter. *)
Lemma filter_loop_nil_iff gf jf cf rf ts runs :
  filter_loop gf jf cf rf ts runs [] = Ok [] ↔
  (∀ run, run ∈ runs → run_matches gf jf run = true →
          keys_present cf rf ts run = true)
  ∧ expected_rows gf jf rf runs = 0%nat.
Proof.
  split.
  - intros Hl. split.
    + intros run Hin Hm.
      destruct (keys_present cf rf ts run) eqn:Hk; [done|].
      destruct (filter_loop_KeyError gf jf cf rf ts runs []) as [k Hk'].
      { by exists run. }
      congruence.
    + apply filter_loop_length in Hl. simpl in Hl. lia.
  - intros [Hk H0].
    destruct (filter_loop_total gf jf cf rf ts runs [] Hk) as [out Hout].
    pose proof (filter_loop_length _ _ _ _ _ _ _ _ Hout) as Hlen.
    simpl in Hlen. rewrite H0 in Hlen. by destruct out.
Qed.

(** Whenever [filter_runs] returns a table, the table has one row per
    run that matches and passes the results filter. *)
Lemma filter_runs_Ok_rows gf jf cf rf ts runs df :
  filter_runs gf jf cf rf ts runs = Ok df →
  nrows df = expected_rows gf jf rf runs ∧ (0 < expected_rows gf jf rf runs)%nat.
Proof.
  rewrite filter_runs_unfold.
  destruct (filter_loop gf jf cf rf ts runs []) as [out|e] eqn:Hl; [|done].
  apply filter_loop_length in Hl. simpl in Hl.
  destruct out as [|r out]; [done|]. intros [= <-].
  rewrite <- Hl. split; [|simpl; lia].
  destruct (prune_mode cf);
    by rewrite ?nrows_remove_constant_columns, nrows_pd_DataFrame.
Qed.

(** C1 (amended).  When no matching run lacks a key that the row is built
    from, [filter_runs] returns a table with one row per run that matches
    the group and job-type filters and passes the results filter (has one
    of the requested metrics, or no results filter is given), provided
    there is such a run; when there is none it raises the no-match
    error.  Matching runs with none of the requested metrics give no
    row. *)
Theorem filter_runs_row_count gf jf cf rf ts runs :
  (∀ run, run ∈ runs → run_matches gf jf run = true →
          keys_present cf rf ts run = true) →
  match filter_runs gf jf cf rf ts runs with
  | Ok df =>
      nrows df = expected_rows gf jf rf runs
      ∧ (0 < expected_rows gf jf rf runs)%nat
  | Raise e => e = NoRunsFound ∧ expected_rows gf jf rf runs = 0%nat
  end.
Proof.
  intros Hk.
  destruct (filter_runs gf jf cf rf ts runs) as [df|e] eqn:Hf.
  - by apply filter_runs_Ok_rows in Hf.
  - rewrite filter_runs_unfold in Hf.
    destruct (filter_loop_total gf jf cf rf ts runs [] Hk) as [out Hout].
    rewrite Hout in Hf. destruct out as [|r out]; [|done].
    injection Hf as <-. split; [done|].
    apply filter_loop_length in Hout. simpl in Hout. lia.
Qed.

(** A matching run that lacks a key makes [filter_runs] raise [KeyError],
    whatever the other runs are. *)
Lemma filter_runs_KeyError gf jf cf rf ts runs :
  (∃ run, run ∈ runs ∧ run_matches gf jf run = true ∧
          keys_present cf rf ts run = false) →
  ∃ k, filter_runs gf jf cf rf ts runs = Raise (KeyError k).
Proof.
  intros Hex. rewrite filter_runs_unfold.
  destruct (filter_loop_KeyError gf jf cf rf ts runs [] Hex) as [k ->].
  by exists k.
Qed.

(** C2.  When the loop of [filter_runs] ends with no row, [filter_runs]
    raises the no-match error, and [main] ends with that error and the
    files as they were: [to_csv] is not reached. *)
Theorem no_rows_no_output gf jf cf rf ts runs :
  filter_loop gf jf cf rf ts runs [] = Ok [] →
  filter_runs gf jf cf rf ts runs = Raise NoRunsFound
  ∧ ∀ api_runs sort_values_descending opt files,
      api_runs (project opt) = runs →
      Some (group_filter opt) = gf → Some (jt_filter opt) = jf →
      config_filter opt = cf → results_filter opt = rf →
      include_timestamp opt = ts →
      main api_runs sort_values_descending opt files
      = (files, Raise NoRunsFound).
Proof.
  intros Hl.
  assert (Hf : filter_runs gf jf cf rf ts runs = Raise NoRunsFound).
  { by rewrite filter_runs_unfold, Hl. }
  split; [done|].
  intros api sv opt files <- <- <- <- <- <-.
  unfold main, report. by rewrite Hf.
Qed.

(** A group filter that no run carries leaves no row. *)
Lemma no_group_no_rows g jf cf rf ts runs :
  g ≠ [] → (∀ run, run ∈ runs → group run ≠ Some g) →
  filter_loop (Some g) jf cf rf ts runs [] = Ok [].
Proof.
  intros Hg Hn. apply filter_loop_no_match. intros run Hin.
  unfold run_matches.
  rewrite (bool_decide_eq_false_2 (group run = Some g)) by by apply Hn.
  rewrite (bool_decide_eq_false_2 (Some g = Some [])) by congruence.
  done.
Qed.

End FilterClaims.

(** ** The config filter *)

Section ConfigFilter.
Context `{PyFloat}.
Implicit Types (cf rf : list str) (conf rp : list (str * Value)).



Lemma copy_named_missing params conf rp e :
  copy_named params conf rp = Raise e →
  ∃ k, e = KeyError k ∧ k ∈ params ∧ dict_get k conf = None.
Proof.
  revert rp. induction params as [|p params IH]; intros rp; simpl; [done|].
  unfold dict_item. destruct (dict_get p conf) as [v|] eqn:Hp; simpl.
  - intros Hc. destruct (IH _ Hc) as (k & -> & Hin & Hk).
    exists k. split; [done|]. split; [apply elem_of_cons; by right | done].
  - intros [= <-]. exists p. split; [done|].
    split; [apply elem_of_cons; by left | done].
Qed.

End ConfigFilter.

(** ** The constant-column pruner *)

Section Pruner.
Context `{PyFloat}.
Implicit Types (df : DataFrame) (cells : list Value).

Lemma unique_str_values_nonempty cells :
  cells ≠ [] → (1 ≤ size (unique_str_values cells))%nat.
Proof.
  destruct cells as [|v cells]; [done|]. intros _.
  assert (Hin : py_str v ∈ unique_str_values (v :: cells)).
  { unfold unique_str_values. rewrite fmap_cons, list_to_set_cons.
    apply elem_of_union. left. by apply elem_of_singleton. }
  destruct (decide (size (unique_str_values (v :: cells)) = 0%nat)) as [Hs|Hs];
    [|lia].
  apply size_empty_iff in Hs. apply Hs in Hin.
  by apply elem_of_empty in Hin.
Qed.

Lemma unique_str_values_single v : size (unique_str_values [v]) = 1%nat.
Proof.
  unfold unique_str_values.
  rewrite fmap_cons, list_to_set_cons, fmap_nil, list_to_set_nil.
  rewrite union_empty_r_L. apply size_singleton.
Qed.

Lemma dict_get_column df col :
  col ∈ columns df → ∃ cells, dict_get col (data df) = Some cells.
Proof.
  intros Hin. destruct (dict_get col (data df)) as [cells|] eqn:Hg.
  - by exists cells.
  - apply dict_get_None in Hg. done.
Qed.

Lemma elem_of_constant_columns df col :
  col ∈ constant_columns df ↔ col ∈ columns df ∧ is_constant df col = true.
Proof. unfold constant_columns. rewrite list_elem_of_filter. tauto. Qed.

Lemma elem_of_remove_constant_columns df c :
  c ∈ data (remove_constant_columns df)
  ↔ c ∈ data df ∧ is_constant df c.1 = false.
Proof.
  unfold remove_constant_columns, drop_columns. simpl.
  rewrite list_elem_of_filter, elem_of_constant_columns.
  split.
  - intros [Hn Hin]. split; [done|].
    destruct (is_constant df c.1) eqn:Hc; [|done].
    exfalso. apply Hn. split; [|done].
    apply list_elem_of_fmap. by exists c.
  - intros [Hin Hc]. split; [|done]. intros [_ Hc']. congruence.
Qed.

(** The columns of [pd.DataFrame(rows)]. *)
Lemma all_keys_NoDup (rows : list (list (str * Value))) : NoDup (all_keys rows).
Proof.
  unfold all_keys.
  assert (Hinner : ∀ (ks acc : list str), NoDup acc →
    NoDup (foldl (λ acc k, if decide (k ∈ acc) then acc else acc ++ [k]) acc ks)).
  { induction ks as [|k ks IH]; intros acc Hacc; simpl; [done|].
    apply IH. destruct (decide (k ∈ acc)); [done|].
    apply NoDup_app. split; [done|]. split; [|apply NoDup_singleton].
    intros x Hx Hx'. apply list_elem_of_singleton in Hx'. by subst. }
  assert (Houter : ∀ acc : list str, NoDup acc →
    NoDup (foldl (λ acc row,
                    foldl (λ acc k, if decide (k ∈ acc) then acc else acc ++ [k])
                          acc (dict_keys row)) acc rows)).
  { induction rows as [|row rows IH]; intros acc Hacc; simpl; [done|].
    apply IH. by apply Hinner. }
  apply Houter, NoDup_nil_2.
Qed.

Lemma length_convert_column cells :
  length (convert_column cells) = length cells.
Proof.
  unfold convert_column. destruct (column_dtype cells); try done.
  apply length_fmap.
Qed.

Lemma pd_DataFrame_well_formed (rows : list (list (str * Value))) :
  well_formed (pd_DataFrame rows).
Proof.
  split.
  - unfold columns, pd_DataFrame. simpl. rewrite <- list_fmap_compose.
    simpl. rewrite list_fmap_id. apply all_keys_NoDup.
  - intros c Hc. rewrite nrows_pd_DataFrame.
    unfold pd_DataFrame in Hc. simpl in Hc.
    apply list_elem_of_fmap in Hc as (k & -> & _). simpl.
    by rewrite length_convert_column, length_fmap.
Qed.

(** C5.  In a table with at least one row, a column is kept by the
    pruner exactly when its cells have at least two distinct string
    forms, and dropped exactly when they have one; the kept columns are
    columns of the table, unchanged.  [filter_runs] applies the pruner
    to its table in prune mode and in no other mode, and the table it
    applies it to is well formed and has a row. *)
Theorem remove_constant_columns_spec df :
  well_formed df → (0 < nrows df)%nat →
  (∀ col cells, (col, cells) ∈ data df →
     ((col, cells) ∈ data (remove_constant_columns df)
      ↔ (2 ≤ size (unique_str_values cells))%nat)
     ∧ ((col, cells) ∉ data (remove_constant_columns df)
        ↔ size (unique_str_values cells) = 1%nat))
  ∧ (∀ c, c ∈ data (remove_constant_columns df) → c ∈ data df)
  ∧ index (remove_constant_columns df) = index df
  ∧ (∀ gf jf cf rf ts runs table,
       filter_runs gf jf cf rf ts runs = Ok table →
       ∃ output,
         filter_loop gf jf cf rf ts runs [] = Ok output
         ∧ well_formed (pd_DataFrame output)
         ∧ (0 < nrows (pd_DataFrame output))%nat
         ∧ table = if prune_mode cf
                   then remove_constant_columns (pd_DataFrame output)
                   else pd_DataFrame output).
Proof.
  intros [Hnd Hal] Hrows. split; [|split; [|split]].
  - intros col cells Hin.
    assert (Hget : dict_get col (data df) = Some cells)
      by by apply dict_get_elem_of.
    assert (Hne : cells ≠ []).
    { intros ->. specialize (Hal _ Hin). simpl in Hal. lia. }
    apply unique_str_values_nonempty in Hne.
    rewrite elem_of_remove_constant_columns. simpl.
    unfold is_constant. rewrite Hget.
    destruct (decide (size (unique_str_values cells) = 1%nat)) as [He|He].
    + rewrite bool_decide_eq_true_2 by done. split; split.
      * by intros [_ ?].
      * lia.
      * done.
      * by intros _ [_ ?].
    + rewrite bool_decide_eq_false_2 by done. split; split.
      * lia.
      * done.
      * intros Hn. by destruct Hn.
      * done.
  - intros c Hc. by apply elem_of_remove_constant_columns in Hc as [? _].
  - done.
  - intros gf jf cf rf ts runs table. rewrite filter_runs_unfold.
    destruct (filter_loop gf jf cf rf ts runs []) as [[|r out]|e]; try done.
    intros [= <-]. exists (r :: out). split; [done|].
    split; [apply pd_DataFrame_well_formed|]. split; [|done].
    rewrite nrows_pd_DataFrame. simpl. lia.
Qed.

(** C10.  The pruner removes every column of a table with one row and
    keeps the row; so when the loop of [filter_runs] gives one row in
    prune mode, the table returned has that one row and no column. *)
Theorem single_row_all_columns_pruned df :
  aligned df → nrows df = 1%nat →
  data (remove_constant_columns df) = []
  ∧ nrows (remove_constant_columns df) = 1%nat
  ∧ (∀ gf jf cf rf ts runs row,
       filter_loop gf jf cf rf ts runs [] = Ok [row] →
       prune_mode cf = true →
       filter_runs gf jf cf rf ts runs = Ok {| index := [0%nat]; data := [] |}).
Proof.
  assert (Hone : ∀ d, aligned d → nrows d = 1%nat →
                      data (remove_constant_columns d) = []).
  { intros d Hal Hrows. apply elem_of_nil_inv. intros c Hc.
    apply elem_of_remove_constant_columns in Hc as [Hin Hc].
    assert (Hcol : c.1 ∈ columns d).
    { apply list_elem_of_fmap. by exists c. }
    destruct (dict_get_column _ _ Hcol) as [cells Hget].
    unfold is_constant in Hc. rewrite Hget in Hc.
    apply dict_get_Some_elem_of in Hget.
    specialize (Hal _ Hget). simpl in Hal. rewrite Hrows in Hal.
    destruct cells as [|v [|? ?]]; try done.
    by rewrite unique_str_values_single in Hc. }
  intros Hal Hrows. split; [by apply Hone|]. split; [done|].
  intros gf jf cf rf ts runs row Hl Hp.
  rewrite filter_runs_unfold, Hl, Hp. f_equal.
  pose proof (pd_DataFrame_well_formed [row]) as [_ Hal'].
  pose proof (Hone _ Hal' (nrows_pd_DataFrame [row])) as Hd.
  unfold remove_constant_columns, drop_columns in *. simpl in *.
  by rewrite Hd.
Qed.

End Pruner.

(** ** [nlargest] *)

Section RankFacts.
Context `{PyFloat}.
Variable leb : Value → Value → bool.
Hypothesis leb_total : ∀ v w, leb v w = true ∨ leb w v = true.
Hypothesis leb_trans :
  ∀ u v w, leb u v = true → leb v w = true → leb u w = true.

Local Abbreviation entry_before := (entry_before leb).

Lemma insert_desc_perm x l : insert_desc leb x l ≡ₚ x :: l.
Proof.
  induction l as [|y l IH]; simpl; [done|].
  destruct (leb x.2 y.2); [|done].
  rewrite IH. apply Permutation_swap.
Qed.

Lemma insert_desc_sorted x l :
  StronglySorted entry_before l →
  Forall (λ y, y.1 < x.1) l →
  StronglySorted entry_before (insert_desc leb x l).
Proof.
  induction 1 as [|y l Hs IH Hy]; intros Hlt; simpl.
  - repeat constructor.
  - apply Forall_cons in Hlt as [Hyx Hlt].
    destruct (leb x.2 y.2) eqn:Hxy.
    + constructor; [by apply IH|].
      rewrite insert_desc_perm. constructor; [|done].
      split; [done | by intros _].
    + assert (Hyx' : leb y.2 x.2 = true).
      { destruct (leb_total x.2 y.2); [congruence | done]. }
      constructor; [by constructor|].
      constructor.
      * split; [done | intros ?; congruence].
      * eapply Forall_impl; [exact Hy|]. intros z [Hzy Hz]. split.
        -- by eapply leb_trans.
        -- intros Hxz. rewrite (leb_trans _ _ _ Hxz Hzy) in Hxy. done.
Qed.

Lemma rank_fold keys a acc :
  StronglySorted entry_before acc →
  Forall (λ y, y.1 < a) acc →
  let r := foldl (λ acc x, insert_desc leb x acc) acc
                 (zip (seq a (length keys)) keys) in
  StronglySorted entry_before r ∧ r ≡ₚ acc ++ zip (seq a (length keys)) keys.
Proof.
  revert a acc. induction keys as [|k keys IH]; intros a acc Hs Hlt; simpl.
  - by rewrite app_nil_r.
  - destruct (IH (S a) (insert_desc leb (a, k) acc)) as [Hs' Hp].
    + by apply insert_desc_sorted.
    + rewrite insert_desc_perm. constructor; [simpl; lia|].
      eapply Forall_impl; [exact Hlt|]. simpl. lia.
    + split; [done|]. rewrite Hp, insert_desc_perm.
      simpl. apply Permutation_middle.
Qed.

(** The ranking lists every position once, the larger keys first and
    equal keys by position. *)
Lemma rank_desc_spec keys :
  rank_desc leb keys ≡ₚ seq 0 (length keys)
  ∧ StronglySorted (ranked_before leb keys) (rank_desc leb keys).
Proof.
  unfold rank_desc.
  destruct (rank_fold keys 0 []) as [Hs Hp]; [constructor | constructor |].
  simpl in Hp. split.
  - rewrite Hp. by rewrite fst_zip by (rewrite length_seq; lia).
  - assert (Hent : Forall (λ x, keys !! x.1 = Some x.2)
                     (foldl (λ acc x, insert_desc leb x acc) []
                            (zip (seq 0 (length keys)) keys))).
    { rewrite Hp. apply Forall_forall. intros [i v] Hin.
      apply list_elem_of_lookup in Hin as [j Hj].
      apply lookup_zip_Some in Hj as [Hi Hv].
      apply lookup_seq in Hi as [-> _]. done. }
    revert Hs Hent.
    generalize (foldl (λ acc x, insert_desc leb x acc) []
                      (zip (seq 0 (length keys)) keys)) as r.
    induction r as [|x r IH]; intros Hs Hent; simpl; [constructor|].
    apply StronglySorted_cons in Hs as [Hx Hs].
    apply Forall_cons in Hent as [Hxe Hent].
    constructor; [by apply IH|].
    apply Forall_fmap. apply Forall_forall. intros y Hy. simpl.
    rewrite Forall_forall in Hx, Hent.
    destruct (Hx y Hy) as [Hyx Hlt].
    exists x.2, y.2. split; [done|]. split; [by apply Hent|]. done.
Qed.

Lemma select_sorted keys r :
  Forall (λ i, i < length keys) r →
  StronglySorted (ranked_before leb keys) r →
  StronglySorted (λ v w, leb w v = true) (select r keys).
Proof.
  unfold select. induction r as [|i r IH]; intros Hlt Hs; simpl;
    [constructor|].
  apply Forall_cons in Hlt as [Hi Hlt].
  apply StronglySorted_cons in Hs as [Hir Hs].
  destruct (lookup_lt_is_Some_2 keys i Hi) as [v Hv]. rewrite Hv.
  constructor; [by apply IH|].
  apply Forall_forall. intros w Hw.
  apply list_elem_of_omap in Hw as (j & Hj & Hjw).
  rewrite Forall_forall in Hir.
  destruct (Hir j Hj) as (v' & w' & Hv' & Hw' & Hle & _).
  congruence.
Qed.

End RankFacts.

Section Nlargest.
Context `{PyFloat}.

Lemma cell_leb_total dt v w :
  cell_leb dt v w = true ∨ cell_leb dt w v = true.
Proof.
  destruct dt; simpl; try (by left).
  - destruct (Z.leb_spec (int_key v) (int_key w)); [by left|].
    right. apply Z.leb_le. lia.
  - destruct (float_key v), (float_key w); auto using float_leb_total.
  - destruct (Z.leb_spec (int_key v) (int_key w)); [by left|].
    right. apply Z.leb_le. lia.
Qed.

Lemma cell_leb_trans dt u v w :
  cell_leb dt u v = true → cell_leb dt v w = true → cell_leb dt u w = true.
Proof.
  destruct dt; simpl; try done.
  - rewrite !Z.leb_le. lia.
  - destruct (float_key u), (float_key v), (float_key w); try done.
    apply float_leb_trans.
  - rewrite !Z.leb_le. lia.
Qed.

Lemma length_select {A} (positions : list nat) (l : list A) :
  Forall (λ i, i < length l) positions →
  length (select positions l) = length positions.
Proof.
  unfold select. induction 1 as [|i ps Hi _ IH]; [done|].
  destruct (lookup_lt_is_Some_2 l i Hi) as [x Hx].
  change (omap (λ i, l !! i) (i :: ps))
    with (match l !! i with
          | Some y => y :: omap (λ i, l !! i) ps
          | None => omap (λ i, l !! i) ps
          end).
  rewrite Hx. cbn [length]. by rewrite IH.
Qed.

Lemma dict_get_take_rows positions df col cells :
  dict_get col (data df) = Some cells →
  dict_get col (data (take_rows positions df)) = Some (select positions cells).
Proof.
  unfold take_rows. simpl.
  induction (data df) as [|[k c] d IH]; simpl; [done|].
  destruct (decide (k = col)); [by intros [= ->] | done].
Qed.

(** C6.  For a table whose metric column is numeric and a limit [n]
    (5 when the option is not given), [nlargest] returns
    [min n (number of rows)] rows: the first [n] positions of a ranking
    of all the rows in which a row with a larger metric comes first and
    rows with equal metrics keep their order in the table; the metric
    column of the result is in descending order. *)
Theorem nlargest_spec n column df cells :
  aligned df →
  dict_get column (data df) = Some cells →
  column_dtype cells ≠ Object →
  ∃ ranking,
    let leb := cell_leb (column_dtype cells) in
    let top := take (Z.to_nat n) ranking in
    nlargest n column df = Ok (take_rows top df)
    ∧ nrows (take_rows top df) = Nat.min (Z.to_nat n) (nrows df)
    ∧ ranking ≡ₚ seq 0 (nrows df)
    ∧ StronglySorted (ranked_before leb cells) ranking
    ∧ dict_get column (data (take_rows top df)) = Some (select top cells)
    ∧ StronglySorted (λ v w, leb w v = true) (select top cells)
    ∧ n_largest parse_opt_defaults = 5%Z.
Proof.
  intros Hal Hget Hdt.
  set (leb := cell_leb (column_dtype cells)).
  assert (Hlen : length cells = nrows df).
  { apply (Hal (column, cells)). by apply dict_get_Some_elem_of. }
  destruct (rank_desc_spec leb (cell_leb_total _) (cell_leb_trans _) cells)
    as [Hperm Hsorted].
  rewrite Hlen in Hperm.
  exists (rank_desc leb cells). cbv zeta. fold leb.
  set (ranking := rank_desc leb cells) in *.
  assert (Hbound : Forall (λ i, i < nrows df) ranking).
  { apply Forall_forall. intros i Hi. rewrite Hperm in Hi.
    apply elem_of_seq in Hi. lia. }
  assert (Htop : Forall (λ i, i < nrows df) (take (Z.to_nat n) ranking)).
  { by apply Forall_take. }
  assert (Hstop : StronglySorted (ranked_before leb cells)
                    (take (Z.to_nat n) ranking)).
  { rewrite <- (take_drop (Z.to_nat n) ranking) in Hsorted.
    by apply StronglySorted_app_1_l in Hsorted. }
  split; [|split; [|split; [|split; [|split; [|split]]]]]; try done.
  - unfold nlargest, df_col, dict_item. rewrite Hget. simpl. fold leb.
    fold ranking. by destruct (column_dtype cells).
  - unfold nrows at 1, take_rows. simpl.
    rewrite length_select by done.
    by rewrite length_take, (Permutation_length Hperm), length_seq.
  - by apply dict_get_take_rows.
  - apply select_sorted; [by rewrite Hlen | done].
Qed.

End Nlargest.

(** ** The column title mapper *)

Section Titles.

Lemma strip_prefix_Some p s r : strip_prefix p s = Some r → s = p ++ r.
Proof.
  revert s. induction p as [|a p IH]; intros [|b s]; simpl; intros Hp;
    try congruence.
  destruct (N.eqb_spec a b) as [->|]; [|done]. by rewrite (IH _ Hp).
Qed.

(** A replacement that changes the case of letters only. *)
Lemma replace_from_skeleton old new s :
  skeleton old = skeleton new →
  skeleton (replace_from old new s) = skeleton s.
Proof.
  intros Hon. unfold skeleton in *.
  funelim (replace_from old new s); simp replace_from.
  - done.
  - rewrite !fmap_cons. f_equal. by apply H.
  - rewrite !fmap_cons. f_equal. by apply H.
  - match goal with
    | Hs : strip_prefix _ _ = Some _ |- _ =>
        rewrite (strip_prefix_Some _ _ _ Hs)
    end.
    rewrite !fmap_app, <- Hon. f_equal. by apply H.
Qed.

Lemma replace_from_ascii old new s :
  is_ascii_str new → is_ascii_str s → is_ascii_str (replace_from old new s).
Proof.
  intros Hnew. unfold is_ascii_str in *.
  funelim (replace_from old new s); simp replace_from; intros Hs; try done;
    try (apply Forall_cons in Hs as [Hc Hs]; constructor;
         [done | by apply H]).
  match goal with
  | Hp : strip_prefix _ _ = Some _ |- _ =>
      rewrite (strip_prefix_Some _ _ _ Hp) in Hs
  end.
  apply Forall_app in Hs as [_ Hs]. apply Forall_app. split; [done|].
  by apply H.
Qed.

(** Replacing a character that does not occur. *)
Lemma replace_from_absent a new s :
  a ∉ s → replace_from [a] new s = s.
Proof.
  funelim (replace_from [a] new s); simp replace_from; intros Hs; try done.
  - apply not_elem_of_cons in Hs as [_ Hs]. f_equal. by apply H.
  - apply not_elem_of_cons in Hs as [Hc _].
    match goal with
    | Hp : strip_prefix _ _ = Some _ |- _ =>
        pose proof (strip_prefix_Some _ _ _ Hp) as Heq
    end.
    simpl in Heq. congruence.
Qed.

(** *** ASCII case, one code point at a time *)

Ltac ascii_cases :=
  unfold Unicode.to_lower, Unicode.to_title, Unicode.is_cased, lower1, upper1,
    Unicode.is_ascii_upper, Unicode.is_ascii_lower, Unicode.I_dot in *;
  repeat match goal with
    | |- context [(?a <=? ?b)%N] => destruct (N.leb_spec a b)
    | |- context [(?a =? ?b)%N] => destruct (N.eqb_spec a b)
    | H : context [(?a <=? ?b)%N] |- _ => destruct (N.leb_spec a b)
    end;
  simpl in *; try done; try lia; try (f_equal; lia).

Lemma to_lower_ascii c : (c < 128)%N → Unicode.to_lower c = [lower1 c].
Proof. intros. ascii_cases. Qed.

Lemma to_title_ascii c : (c < 128)%N → Unicode.to_title c = [upper1 c].
Proof. intros. ascii_cases. Qed.

Lemma lower1_ascii c : (c < 128)%N → (lower1 c < 128)%N.
Proof. intros. ascii_cases. Qed.

Lemma upper1_ascii c : (c < 128)%N → (upper1 c < 128)%N.
Proof. intros. ascii_cases. Qed.

Lemma lower1_idemp c : lower1 (lower1 c) = lower1 c.
Proof. ascii_cases. Qed.

Lemma lower1_upper1 c : lower1 (upper1 c) = lower1 c.
Proof. ascii_cases. Qed.

Lemma upper1_lower1 c : upper1 (lower1 c) = upper1 c.
Proof. ascii_cases. Qed.

Lemma is_cased_lower1 c :
  (c < 128)%N → Unicode.is_cased (lower1 c) = Unicode.is_cased c.
Proof. intros. ascii_cases. Qed.

Lemma lower1_separator c a :
  a = 47%N ∨ a = 95%N → lower1 c = a → c = a.
Proof. intros [->| ->]; ascii_cases. Qed.

(** *** [title] on ASCII strings *)

(** The title form depends on the letters only up to case. *)
Lemma title_from_skeleton b s s' :
  is_ascii_str s → is_ascii_str s' → skeleton s = skeleton s' →
  title_from b s = title_from b s'.
Proof.
  unfold is_ascii_str, skeleton. intros Hs. revert b s'.
  induction Hs as [|c s Hc Hs IH]; intros b [|c' s'] Hs' Heq; try done.
  apply Forall_cons in Hs' as [Hc' Hs'].
  rewrite !fmap_cons in Heq. injection Heq as Hcc Heq.
  simpl. rewrite !to_lower_ascii, !to_title_ascii by done.
  rewrite <- (upper1_lower1 c), <- (upper1_lower1 c'), Hcc.
  rewrite <- (is_cased_lower1 c), <- (is_cased_lower1 c'), Hcc by done.
  f_equal. by apply IH.
Qed.

(** [title] changes the case of letters only. *)
Lemma title_from_ascii b s :
  is_ascii_str s →
  is_ascii_str (title_from b s) ∧ skeleton (title_from b s) = skeleton s.
Proof.
  unfold is_ascii_str, skeleton. intros Hs. revert b.
  induction Hs as [|c s Hc Hs IH]; intros b; simpl; [done|].
  destruct (IH (Unicode.is_cased c)) as [IH1 IH2].
  rewrite to_lower_ascii, to_title_ascii by done.
  destruct b; cbn [app]; rewrite fmap_cons, IH2.
  - split; [constructor; [by apply lower1_ascii | done]|].
    by rewrite lower1_idemp.
  - split; [constructor; [by apply upper1_ascii | done]|].
    by rewrite lower1_upper1.
Qed.

Lemma no_separator_skeleton s s' :
  skeleton s = skeleton s' → no_separator s → no_separator s'.
Proof.
  unfold skeleton, no_separator. intros Heq [H1 H2].
  assert (Hsep : ∀ a, a = 47%N ∨ a = 95%N → a ∉ s → a ∉ s').
  { intros a Ha Hn Hin. apply Hn.
    assert (Hl : lower1 a ∈ lower1 <$> s).
    { rewrite Heq. apply list_elem_of_fmap. by exists a. }
    apply list_elem_of_fmap in Hl as (c & Hc & Hcs).
    assert (lower1 a = a) as Hla by (destruct Ha as [-> | ->]; done).
    rewrite Hla in Hc. symmetry in Hc.
    by rewrite <- (lower1_separator c a Ha Hc). }
  split; apply Hsep; auto.
Qed.

(** The title of a name without separators. *)
Lemma column_title_no_separator col :
  no_separator col →
  column_title col
  = replace_from (py "Nn") (py "NN")
      (replace_from (py "Lr") (py "LR") (str_title col)).
Proof.
  intros [H1 H2]. unfold column_title, str_replace.
  change (py "/") with [47%N]. change (py "_") with [95%N].
  cbv match. rewrite (replace_from_absent 47%N) by done.
  by rewrite (replace_from_absent 95%N) by done.
Qed.

(** C8 (amended).  For every column name made of ASCII characters, with
    no path separator and no underscore, the title of the title is the
    title. *)
Theorem column_title_idempotent col :
  is_ascii_str col → no_separator col →
  column_title (column_title col) = column_title col.
Proof.
  intros Hascii Hsep.
  rewrite (column_title_no_separator col Hsep).
  set (fixed := replace_from (py "Nn") (py "NN")
                  (replace_from (py "Lr") (py "LR") (str_title col))).
  destruct (title_from_ascii false col Hascii) as [Hta Hts].
  assert (Hfa : is_ascii_str fixed).
  { apply replace_from_ascii; [by repeat constructor|].
    apply replace_from_ascii; [by repeat constructor | done]. }
  assert (Hfs : skeleton fixed = skeleton col).
  { unfold fixed. rewrite !replace_from_skeleton by done. done. }
  assert (Hfn : no_separator fixed).
  { by apply (no_separator_skeleton col). }
  rewrite (column_title_no_separator fixed Hfn).
  unfold fixed at 2, str_title.
  by rewrite (title_from_skeleton false fixed col).
Qed.

End Titles.

(** ** The rounding stage *)

Section Rounding.
Context `{PyFloat}.

(** The chain looks for the first marker found in the name and rounds
    to its decimals when the cell at label 0 is a float; the cell is read
    only when a marker is found. *)
Lemma round_decimals_first_marker col first :
  round_decimals col first =
    match first_marker col with
    | None => Ok None
    | Some d => v ← first; Ok (if is_float v then Some d else None)
    end.
Proof.
  unfold round_decimals, first_marker, elif.
  destruct first as [v|e]; simpl; [destruct (is_float v)|];
    repeat (match goal with
            | |- context [str_contains ?m ?s] => destruct (str_contains m s)
            end; simpl; try done).
Qed.

(** A column without a marker is left as it is. *)
Lemma round_column_no_marker df col :
  first_marker col = None → round_column df col = Ok df.
Proof.
  intros Hm. unfold round_column.
  by rewrite round_decimals_first_marker, Hm.
Qed.

End Rounding.

(** ** Concrete inputs *)

Module Concrete.
Import Examples.

Ltac by_decide := apply (bool_decide_unpack _); vm_compute; exact I.

Ltac each_elem H :=
  repeat (apply elem_of_cons in H as [->|H]);
  [.. | by apply elem_of_nil in H].

(** C1, as stated, fails: a run matches the filters, and [filter_runs]
    returns no table, with [KeyError] when the run lacks a named config
    key (the count of the claim is 1 there) and with the no-match error
    when the run has none of the requested metrics. *)
Lemma filter_runs_row_count_counterexample :
  run_matches (Some (py "A")) (Some []) run_unfinished = true
  ∧ expected_rows (Some (py "A")) (Some []) [] [run_unfinished] = 1%nat
  ∧ filter_runs (Some (py "A")) (Some []) [py "batch_size"] [] false
      [run_unfinished]
    = Raise (KeyError (py "batch_size"))
  ∧ filter_runs (Some (py "A")) (Some []) [] [py "ssim"] false [run_unfinished]
    = Raise NoRunsFound
  ∧ ¬ (∀ gf jf cf rf ts runs,
         (∃ run, run ∈ runs ∧ run_matches gf jf run = true) →
         ∃ df, filter_runs gf jf cf rf ts runs = Ok df
               ∧ nrows df = expected_rows gf jf rf runs).
Proof.
  split; [reflexivity|]. split; [reflexivity|]. split; [reflexivity|].
  split; [reflexivity|].
  intros Hclaim.
  destruct (Hclaim (Some (py "A")) (Some []) [py "batch_size"] [] false
              [run_unfinished]) as (df & Hdf & _).
  - exists run_unfinished. split; [apply elem_of_cons; by left | reflexivity].
  - change (Raise (KeyError (py "batch_size")) = Ok df) in Hdf. discriminate.
Qed.

Lemma filter_runs_row_count_witness :
  (∀ run, run ∈ runs → run_matches (Some (py "A")) (Some []) run = true →
          keys_present [py "lr"] [py "ssim"] true run = true)
  ∧ match filter_runs (Some (py "A")) (Some []) [py "lr"] [py "ssim"] true runs with
    | Ok df =>
        nrows df = expected_rows (Some (py "A")) (Some []) [py "ssim"] runs
        ∧ (0 < expected_rows (Some (py "A")) (Some []) [py "ssim"] runs)%nat
    | Raise e =>
        e = NoRunsFound
        ∧ expected_rows (Some (py "A")) (Some []) [py "ssim"] runs = 0%nat
    end.
Proof.
  assert (Hk : ∀ run, run ∈ runs →
               run_matches (Some (py "A")) (Some []) run = true →
               keys_present [py "lr"] [py "ssim"] true run = true).
  { intros run Hin. unfold runs in Hin. each_elem Hin; vm_compute; auto. }
  split; [exact Hk|].
  exact (filter_runs_row_count (Some (py "A")) (Some []) [py "lr"] [py "ssim"]
           true runs Hk).
Defined.

Lemma no_rows_no_output_witness :
  filter_loop (Some (py "C")) (Some []) [] [py "ssim"] false runs [] = Ok []
  ∧ filter_runs (Some (py "C")) (Some []) [] [py "ssim"] false runs
    = Raise NoRunsFound
  ∧ main (λ _, runs) (λ _ df, Ok df) opt_group_c ∅ = (∅, Raise NoRunsFound).
Proof.
  assert (Hl : filter_loop (Some (py "C")) (Some []) [] [py "ssim"] false
                 runs [] = Ok []) by reflexivity.
  split; [exact Hl|].
  destruct (no_rows_no_output _ _ _ _ _ _ Hl) as [Hf Hmain].
  split; [exact Hf|].
  exact (Hmain (λ _, runs) (λ _ df, Ok df) opt_group_c ∅
           eq_refl eq_refl eq_refl eq_refl eq_refl eq_refl).
Defined.

Lemma remove_constant_columns_spec_witness :
  well_formed table ∧ (0 < nrows table)%nat
  ∧ index (remove_constant_columns table) = index table.
Proof.
  assert (Hwf : well_formed table).
  { split; [by_decide|]. intros c Hc. unfold table in Hc. simpl in Hc.
    each_elem Hc; reflexivity. }
  assert (Hrows : (0 < nrows table)%nat) by (vm_compute; lia).
  split; [exact Hwf|]. split; [exact Hrows|].
  exact (proj1 (proj2 (proj2 (remove_constant_columns_spec table Hwf Hrows)))).
Defined.

Lemma nlargest_spec_witness :
  aligned table
  ∧ dict_get (py "ssim") (data table) = Some ssim_cells
  ∧ column_dtype ssim_cells ≠ Object
  ∧ ∃ df, nlargest 2 (py "ssim") table = Ok df ∧ nrows df = 2%nat.
Proof.
  assert (Hal : aligned table).
  { intros c Hc. unfold table in Hc. simpl in Hc. each_elem Hc; reflexivity. }
  assert (Hget : dict_get (py "ssim") (data table) = Some ssim_cells)
    by reflexivity.
  assert (Hdt : column_dtype ssim_cells ≠ Object) by (vm_compute; discriminate).
  split; [exact Hal|]. split; [exact Hget|]. split; [exact Hdt|].
  destruct (nlargest_spec 2 (py "ssim") table ssim_cells Hal Hget Hdt)
    as (ranking & Hnl & Hrows & _).
  eexists. split; [exact Hnl|].
  rewrite Hrows. reflexivity.
Defined.

Lemma column_title_idempotent_witness :
  is_ascii_str (py "Train LR") ∧ no_separator (py "Train LR")
  ∧ column_title (column_title (py "Train LR")) = column_title (py "Train LR").
Proof.
  assert (Ha : is_ascii_str (py "Train LR")) by by_decide.
  assert (Hs : no_separator (py "Train LR")) by by_decide.
  split; [exact Ha|]. split; [exact Hs|].
  exact (column_title_idempotent (py "Train LR") Ha Hs).
Defined.

(** C8, as stated, fails: the name "aİb" (U+0061 U+0130 U+0062) has no
    separator; its title is "Ai̇b", with U+0069 U+0307 for the dotted
    capital, and the title of that is "Ai̇B", because the combining dot
    is not a cased character and the letter after it starts a word. *)
Lemma column_title_idempotent_counterexample :
  no_separator [97; 304; 98]%N
  ∧ column_title [97; 304; 98]%N = [65; 105; 775; 98]%N
  ∧ column_title (column_title [97; 304; 98]%N) = [65; 105; 775; 66]%N
  ∧ column_title (column_title [97; 304; 98]%N) ≠ column_title [97; 304; 98]%N.
Proof.
  split; [by_decide|]. split; [reflexivity|]. split; [reflexivity|].
  vm_compute. discriminate.
Qed.

Lemma single_row_all_columns_pruned_witness :
  aligned one_row_table ∧ nrows one_row_table = 1%nat
  ∧ data (remove_constant_columns one_row_table) = [].
Proof.
  assert (Hal : aligned one_row_table).
  { intros c Hc. unfold one_row_table in Hc. simpl in Hc.
    each_elem Hc; reflexivity. }
  assert (Hrows : nrows one_row_table = 1%nat) by reflexivity.
  split; [exact Hal|]. split; [exact Hrows|].
  exact (proj1 (single_row_all_columns_pruned one_row_table Hal Hrows)).
Defined.

(** C4 on concrete tables.  A float column named "Accuracy" is left as it
    is, because the first three arms look for their marker in the name
    as written, while the same column named "accuracy" is rounded to two
    decimals and a column named "SSIM" to four, its arm lower-casing the
    name; and a table whose rows do not carry the label 0 makes the stage
    raise [KeyError] once a marker is found. *)
Lemma round_columns_case_sensitive :
  round_columns {| index := [0%nat]; data := [(py "Accuracy", [VFloat 987654%Z])] |}
  = Ok {| index := [0%nat]; data := [(py "Accuracy", [VFloat 987654%Z])] |}
  ∧ round_columns {| index := [0%nat]; data := [(py "accuracy", [VFloat 987654%Z])] |}
    = Ok {| index := [0%nat]; data := [(py "accuracy", [VFloat 990000%Z])] |}
  ∧ round_columns {| index := [0%nat]; data := [(py "SSIM", [VFloat 987654%Z])] |}
    = Ok {| index := [0%nat]; data := [(py "SSIM", [VFloat 987700%Z])] |}
  ∧ round_columns {| index := [1%nat]; data := [(py "ssim", [VFloat 987654%Z])] |}
    = Raise (KeyError_label 0).
Proof. repeat split; reflexivity. Qed.

End Concrete.

(** * Further properties *)

(** ** The run filter: errors, rows and the table *)

Section FilterMore.
Context `{PyFloat}.
Implicit Types (gf jf : option str) (cf rf : list str) (ts : bool).

Local Abbreviation row := (list (str * Value)).

Lemma elem_of_dict_keys {V} k (d : list (str * V)) :
  k ∈ dict_keys d ↔ dict_get k d ≠ None.
Proof.
  rewrite dict_get_None. split.
  - intros Hin Hnot. by apply Hnot.
  - intros Hnn. destruct (decide (k ∈ dict_keys d)); [done|].
    exfalso. by apply Hnn.
Qed.

Lemma elem_of_dict_keys_set {V} k k' (v : V) (d : list (str * V)) :
  k' ∈ dict_keys (dict_set k v d) ↔ k' = k ∨ k' ∈ dict_keys d.
Proof.
  rewrite !elem_of_dict_keys, dict_get_set.
  destruct (decide (k = k')) as [->|Hne].
  - split; [by left | done].
  - split; [by right | by intros [->|?]].
Qed.

Lemma dict_set_NoDup {V} k (v : V) (d : list (str * V)) :
  NoDup (dict_keys d) → NoDup (dict_keys (dict_set k v d)).
Proof.
  induction d as [|[k0 v0] d IH]; simpl; intros Hnd.
  - apply NoDup_singleton.
  - unfold dict_keys in *. simpl in Hnd.
    apply NoDup_cons in Hnd as [Hk0 Hnd].
    destruct (decide (k0 = k)) as [->|Hne]; simpl.
    + by apply NoDup_cons.
    + apply NoDup_cons. split; [|by apply IH].
      intros Hin. apply (elem_of_dict_keys_set k k0 v d) in Hin as [?|?]; done.
Qed.

(** The underscore-free config is a dict without the underscore keys. *)
Lemma public_config_dict (run : Run) :
  NoDup (dict_keys (public_config run))
  ∧ ∀ k, str_startswith k (py "_") = true →
         dict_get k (public_config run) = None.
Proof.
  unfold public_config. generalize (config run) as conf.
  induction conf as [|[k0 v0] conf [IH1 IH2]] using rev_ind.
  - split; [apply NoDup_nil_2 | done].
  - rewrite foldl_snoc. simpl.
    destruct (str_startswith k0 (py "_")) eqn:Hs0; [done|].
    split; [by apply dict_set_NoDup|].
    intros k Hk. rewrite dict_get_set, IH2 by done.
    destruct (decide (k0 = k)) as [->|]; [congruence | done].
Qed.

Lemma copy_summary_Raise rf ts (summ rp : row) e :
  copy_summary rf ts summ rp = Raise e → e = KeyError (py "_timestamp").
Proof.
  unfold copy_summary. destruct rf as [|p rf']; [done|].
  destruct (copy_results (p :: rf') summ rp false) as [rp' valid].
  destruct valid; [|done]. destruct ts; [|done].
  unfold dict_item. destruct (dict_get (py "_timestamp") summ); [done|].
  by intros [= <-].
Qed.

Lemma run_row_Raise cf rf ts run e :
  run_row cf rf ts run = Raise e →
  ∃ k, e = KeyError k ∧ (k ∈ cf ∨ k = py "_timestamp").
Proof.
  unfold run_row, copy_config.
  destruct (selects_named cf).
  - destruct (copy_named cf (public_config run) (identity_fields run))
      as [rp|e'] eqn:Hcn; simpl.
    + intros He. apply copy_summary_Raise in He. eauto.
    + intros [= <-]. apply copy_named_missing in Hcn as (k & -> & Hk & _). eauto.
  - simpl. intros He. apply copy_summary_Raise in He. eauto.
Qed.

Lemma filter_loop_Raise gf jf cf rf ts runs output e :
  filter_loop gf jf cf rf ts runs output = Raise e →
  (∃ k, e = KeyError k ∧ (k ∈ cf ∨ k = py "_timestamp"))
  ∧ ∃ run, run ∈ runs ∧ run_matches gf jf run = true
           ∧ keys_present cf rf ts run = false.
Proof.
  revert output. induction runs as [|run runs IH]; intros output; simpl; [done|].
  assert (Htl : ∀ out, filter_loop gf jf cf rf ts runs out = Raise e →
    (∃ k, e = KeyError k ∧ (k ∈ cf ∨ k = py "_timestamp"))
    ∧ ∃ run', run' ∈ run :: runs ∧ run_matches gf jf run' = true
              ∧ keys_present cf rf ts run' = false).
  { intros out Hl. destruct (IH _ Hl) as [Hk (r & Hr & Hm & Hkp)].
    split; [done|]. exists r. split; [apply elem_of_cons; by right | done]. }
  destruct (run_matches gf jf run) eqn:Hm; [|apply Htl].
  destruct (run_row cf rf ts run) as [[r|]|e'] eqn:Hr; simpl; try apply Htl.
  intros [= <-]. split; [by apply run_row_Raise in Hr|].
  exists run. split; [apply elem_of_cons; by left|]. split; [done|].
  pose proof (run_row_cases cf rf ts run) as Hc. rewrite Hr in Hc.
  destruct (keys_present cf rf ts run); [|done].
  destruct (passes_results rf run); [by destruct Hc | done].
Qed.

(** X1.  The outcomes of [filter_runs]: a table when no matching run lacks
    a key and some matching run passes the results filter; the no-match
    error when no matching run lacks a key and none passes; [KeyError],
    for a key named by the config filter or for "_timestamp", when a
    matching run lacks a key; and nothing else. *)
Theorem filter_runs_outcomes gf jf cf rf ts runs :
  match filter_runs gf jf cf rf ts runs with
  | Ok df =>
      (∀ run, run ∈ runs → run_matches gf jf run = true →
              keys_present cf rf ts run = true)
      ∧ (0 < expected_rows gf jf rf runs)%nat
  | Raise NoRunsFound =>
      (∀ run, run ∈ runs → run_matches gf jf run = true →
              keys_present cf rf ts run = true)
      ∧ expected_rows gf jf rf runs = 0%nat
  | Raise (KeyError k) =>
      (∃ run, run ∈ runs ∧ run_matches gf jf run = true
              ∧ keys_present cf rf ts run = false)
      ∧ (k ∈ cf ∨ k = py "_timestamp")
  | Raise _ => False
  end.
Proof.
  assert (Hkeys : ∀ out, filter_loop gf jf cf rf ts runs [] = Ok out →
            ∀ run, run ∈ runs → run_matches gf jf run = true →
                   keys_present cf rf ts run = true).
  { intros out Hl run Hin Hm.
    destruct (keys_present cf rf ts run) eqn:Hk; [done|].
    destruct (filter_loop_KeyError gf jf cf rf ts runs []) as [k Hk'];
      [by exists run | congruence]. }
  rewrite filter_runs_unfold.
  destruct (filter_loop gf jf cf rf ts runs []) as [out|e] eqn:Hl.
  - pose proof (filter_loop_length _ _ _ _ _ _ _ _ Hl) as Hlen. simpl in Hlen.
    destruct out as [|r out].
    + split; [by eapply Hkeys | simpl in Hlen; lia].
    + split; [by eapply Hkeys | simpl in Hlen; lia].
  - by destruct (filter_loop_Raise _ _ _ _ _ _ _ _ Hl) as [(k & -> & Hk) Hex].
Qed.

(** X2.  A config filter that names a key starting with an underscore
    raises [KeyError] as soon as a run matches: such keys are removed from
    the config before the named keys are looked up. *)
Theorem underscore_key_raises gf jf cf rf ts runs k run :
  selects_named cf = true →
  k ∈ cf → str_startswith k (py "_") = true →
  run ∈ runs → run_matches gf jf run = true →
  ∃ k', filter_runs gf jf cf rf ts runs = Raise (KeyError k').
Proof.
  intros Hsel Hk Hs Hin Hm. apply filter_runs_KeyError.
  exists run. split; [done|]. split; [done|].
  unfold keys_present. rewrite Hsel. simpl.
  assert (Hall : forallb (λ k, dict_has k (public_config run)) cf = false).
  { apply not_true_is_false. intros Hall.
    rewrite forallb_forall in Hall.
    specialize (Hall k (proj1 (list_elem_of_In _ _) Hk)).
    unfold dict_has in Hall.
    by rewrite (proj2 (public_config_dict run) k Hs) in Hall. }
  by rewrite Hall.
Qed.

(** X3.  The rows of the table are the rows of the runs that match and
    pass the results filter, one per run and in the order of the runs. *)
Theorem filter_runs_rows_in_order gf jf cf rf ts runs df :
  filter_runs gf jf cf rf ts runs = Ok df →
  ∃ output,
    Forall2 (λ run r, run_row cf rf ts run = Ok (Some r))
      (filter (λ run, run_matches gf jf run && passes_results rf run = true) runs)
      output
    ∧ df = if prune_mode cf then remove_constant_columns (pd_DataFrame output)
           else pd_DataFrame output.
Proof.
  assert (Hloop : ∀ rs output out,
    filter_loop gf jf cf rf ts rs output = Ok out →
    ∃ out', out = output ++ out' ∧
      Forall2 (λ run r, run_row cf rf ts run = Ok (Some r))
        (filter (λ run, run_matches gf jf run && passes_results rf run = true) rs)
        out').
  { induction rs as [|run rs IH]; intros output out Hl.
    - simpl in Hl. injection Hl as <-. exists []. by rewrite app_nil_r.
    - rewrite filter_cons. simpl in Hl.
      destruct (run_matches gf jf run) eqn:Hm.
      + destruct (run_row cf rf ts run) as [[r|]|e] eqn:Hr; simpl in Hl; [| |done].
        * rewrite decide_True by by rewrite (run_row_Some _ _ _ _ _ Hr).
          destruct (IH _ _ Hl) as (out' & -> & Hf).
          exists (r :: out'). rewrite <- app_assoc. split; [done|].
          by constructor.
        * rewrite decide_False by by rewrite (run_row_None _ _ _ _ Hr).
          by apply IH.
      + rewrite decide_False by done. by apply IH. }
  rewrite filter_runs_unfold.
  destruct (filter_loop gf jf cf rf ts runs []) as [out|e] eqn:Hl; [|done].
  destruct (Hloop _ _ _ Hl) as (out' & -> & Hf). simpl in *.
  destruct out' as [|r out']; [done|]. intros [= <-]. by exists (r :: out').
Qed.

(** X4.  Without a results filter and without named config keys, the row
    of a run holds, for every key, the value of the summary if the summary
    has the key, else the value of the underscore-free config if it has
    the key, else the identity field: a summary or config entry called
    "group", "job_type" or "run_name" replaces the identity field. *)
Theorem row_precedence cf ts run :
  selects_named cf = false →
  NoDup (dict_keys (summary run)) →
  ∃ r, run_row cf [] ts run = Ok (Some r)
       ∧ ∀ k, dict_get k r =
              match dict_get k (summary run) with
              | Some v => Some v
              | None =>
                  match dict_get k (public_config run) with
                  | Some v => Some v
                  | None => dict_get k (identity_fields run)
                  end
              end.
Proof.
  intros Hsel Hnd. unfold run_row, copy_config. rewrite Hsel. simpl.
  eexists. split; [done|]. intros k.
  rewrite dict_get_update by done.
  by rewrite dict_get_update by apply public_config_dict.
Qed.

Lemma copy_results_get params (summ rp : row) valid k :
  dict_get k (copy_results params summ rp valid).1 =
    if decide (k ∈ params) then
      match dict_get k summ with Some v => Some v | None => dict_get k rp end
    else dict_get k rp.
Proof.
  revert rp valid. induction params as [|p params IH]; intros rp valid.
  - cbn [copy_results fst]. rewrite decide_False; [done | apply not_elem_of_nil].
  - cbn [copy_results]. destruct (dict_get p summ) as [value|] eqn:Hp; rewrite IH.
    + rewrite dict_get_set.
      destruct (decide (k ∈ params)) as [Hin|Hnin],
               (decide (k ∈ p :: params)) as [Hin'|Hnin'],
               (decide (p = k)) as [->|Hne];
        try done; try (by rewrite Hp); exfalso;
        first [ apply Hnin', elem_of_cons; by right
              | apply Hnin', elem_of_cons; by left
              | apply elem_of_cons in Hin' as [->|?]; done ].
    + destruct (decide (k ∈ params)) as [Hin|Hnin],
               (decide (k ∈ p :: params)) as [Hin'|Hnin'],
               (decide (p = k)) as [->|Hne];
        try done; try (by rewrite Hp); exfalso;
        first [ apply Hnin', elem_of_cons; by right
              | apply Hnin', elem_of_cons; by left
              | apply elem_of_cons in Hin' as [->|?]; done ].
Qed.

(** X5.  With a results filter, the row of a run that is kept has one of
    the requested metrics; it takes from the summary the requested
    metrics that are there and nothing else, but for "timestamp", which
    holds the summary's "_timestamp" when the timestamp is asked for. *)
Theorem results_filter_row cf rf ts run r :
  rf ≠ [] →
  run_row cf rf ts run = Ok (Some r) →
  ∃ rp,
    copy_config cf (public_config run) (identity_fields run) = Ok rp
    ∧ (∃ p, p ∈ rf ∧ dict_has p (summary run) = true)
    ∧ (∀ k, ts = false ∨ k ≠ py "timestamp" →
         dict_get k r =
           if decide (k ∈ rf) then
             match dict_get k (summary run) with
             | Some v => Some v
             | None => dict_get k rp
             end
           else dict_get k rp)
    ∧ (ts = true →
         dict_get (py "timestamp") r = dict_get (py "_timestamp") (summary run)).
Proof.
  intros Hrf Hr. pose proof (run_row_Some _ _ _ _ _ Hr) as Hpass.
  unfold run_row in Hr.
  destruct (copy_config cf (public_config run) (identity_fields run))
    as [rp|e]; [|done].
  exists rp. split; [done|]. simpl in Hr. unfold copy_summary in Hr.
  destruct rf as [|p rf']; [done|]. clear Hrf.
  split.
  { unfold passes_results in Hpass. apply existsb_exists in Hpass as (q & Hq & Hh).
    exists q. split; [by apply list_elem_of_In | done]. }
  pose proof (copy_results_get (p :: rf') (summary run) rp false) as Hget.
  destruct (copy_results (p :: rf') (summary run) rp false) as [rp' valid].
  simpl in Hget. destruct valid; [|done].
  destruct ts.
  - unfold dict_item in Hr.
    destruct (dict_get (py "_timestamp") (summary run)) as [t|] eqn:Ht; [|done].
    simpl in Hr. injection Hr as <-. split.
    + intros k [?|Hk]; [done|]. rewrite dict_get_set, decide_False by done.
      apply Hget.
    + intros _. by rewrite dict_get_set, decide_True.
  - simpl in Hr. injection Hr as <-. split; [|done]. intros k _. apply Hget.
Qed.

(** X6.  With the options of an empty command line every run gives a row:
    the table has as many rows as there are runs, and the no-match error
    is raised only for a project without runs. *)
Theorem default_options_take_every_run runs :
  let o := parse_opt_defaults in
  match runs with
  | [] =>
      filter_runs (Some (group_filter o)) (Some (jt_filter o)) (config_filter o)
        (results_filter o) (include_timestamp o) runs = Raise NoRunsFound
  | _ :: _ =>
      ∃ df,
        filter_runs (Some (group_filter o)) (Some (jt_filter o)) (config_filter o)
          (results_filter o) (include_timestamp o) runs = Ok df
        ∧ nrows df = length runs
  end.
Proof.
  cbv zeta. change (group_filter parse_opt_defaults) with ([] : str).
  change (jt_filter parse_opt_defaults) with ([] : str).
  change (config_filter parse_opt_defaults) with ([] : list str).
  change (results_filter parse_opt_defaults) with ([] : list str).
  change (include_timestamp parse_opt_defaults) with false.
  assert (Hexp : ∀ rs : list Run, expected_rows (Some []) (Some []) [] rs = length rs).
  { induction rs as [|run rs IH]; [done|].
    rewrite expected_rows_cons, IH. unfold run_matches, passes_results.
    rewrite (bool_decide_eq_true_2 (Some [] = Some [])) by done.
    by rewrite !orb_true_r. }
  destruct (filter_loop_total (Some []) (Some []) [] [] false runs []) as [out Hout];
    [done|].
  pose proof (filter_loop_length _ _ _ _ _ _ _ _ Hout) as Hlen.
  rewrite Hexp in Hlen. simpl in Hlen.
  rewrite filter_runs_unfold, Hout.
  destruct runs as [|run runs]; destruct out as [|r out]; try done.
  eexists. split; [done|]. simpl. by rewrite nrows_pd_DataFrame.
Qed.

Lemma all_keys_elem_of (rows : list row) k :
  k ∈ all_keys rows ↔ ∃ r, r ∈ rows ∧ k ∈ dict_keys r.
Proof.
  unfold all_keys.
  assert (Hinner : ∀ (ks acc : list str),
    k ∈ foldl (λ acc k, if decide (k ∈ acc) then acc else acc ++ [k]) acc ks
    ↔ k ∈ acc ∨ k ∈ ks).
  { induction ks as [|k0 ks IH]; intros acc; simpl.
    - rewrite elem_of_nil. tauto.
    - rewrite IH, elem_of_cons. destruct (decide (k0 ∈ acc)) as [Hin|Hnin].
      + split; [tauto|]. intros [?|[->|?]]; tauto.
      + rewrite elem_of_app, list_elem_of_singleton. tauto. }
  assert (Houter : ∀ (rs : list row) (acc : list str),
    k ∈ foldl (λ acc r,
                 foldl (λ acc k, if decide (k ∈ acc) then acc else acc ++ [k])
                       acc (dict_keys r)) acc rs
    ↔ k ∈ acc ∨ ∃ r, r ∈ rs ∧ k ∈ dict_keys r).
  { induction rs as [|r0 rs IH]; intros acc; simpl.
    - split; [tauto|]. intros [?|(r & Hr & _)]; [done|].
      by apply elem_of_nil in Hr.
    - rewrite IH, Hinner. split.
      + intros [[?|?]|(r & Hr & Hk)]; [tauto| |].
        * right. exists r0. split; [apply elem_of_cons; by left | done].
        * right. exists r. split; [apply elem_of_cons; by right | done].
      + intros [?|(r & Hr & Hk)]; [tauto|].
        apply elem_of_cons in Hr as [->|Hr]; [tauto|].
        right. by exists r. }
  rewrite Houter, elem_of_nil. split; [by intros [?|?] | tauto].
Qed.

Lemma remove_constant_columns_well_formed df :
  well_formed df → well_formed (remove_constant_columns df).
Proof.
  intros [Hnd Hal]. split.
  - eapply sublist_NoDup; [exact Hnd|].
    unfold columns, remove_constant_columns, drop_columns. simpl.
    apply fmap_sublist, sublist_filter.
  - intros c Hc. apply elem_of_remove_constant_columns in Hc as [Hc _].
    by apply Hal.
Qed.

(** X7.  The table [filter_runs] returns is well formed, its rows carry the
    labels 0, 1, ... in order, and outside the prune mode its columns are
    the keys of the rows: a column for every key some row has, and no
    other column. *)
Theorem filter_runs_table gf jf cf rf ts runs df :
  filter_runs gf jf cf rf ts runs = Ok df →
  well_formed df
  ∧ index df = seq 0 (nrows df)
  ∧ ∃ output,
      filter_loop gf jf cf rf ts runs [] = Ok output
      ∧ (prune_mode cf = false →
         ∀ k, k ∈ columns df ↔ ∃ r, r ∈ output ∧ k ∈ dict_keys r).
Proof.
  rewrite filter_runs_unfold.
  destruct (filter_loop gf jf cf rf ts runs []) as [[|r out]|e]; try done.
  intros [= <-].
  assert (Hcols : columns (pd_DataFrame (r :: out)) = all_keys (r :: out)).
  { unfold columns, pd_DataFrame. simpl. rewrite <- list_fmap_compose.
    apply list_fmap_id. }
  destruct (prune_mode cf).
  - split; [apply remove_constant_columns_well_formed, pd_DataFrame_well_formed|].
    split; [|by exists (r :: out)].
    rewrite nrows_remove_constant_columns, nrows_pd_DataFrame. done.
  - split; [apply pd_DataFrame_well_formed|]. split.
    + by rewrite nrows_pd_DataFrame.
    + exists (r :: out). split; [done|]. intros _ k.
      rewrite Hcols. apply all_keys_elem_of.
Qed.

End FilterMore.

(** ** The pruner: applying it twice, and tables without rows *)

Section PrunerMore.
Context `{PyFloat}.
Implicit Types (df : DataFrame).

Lemma filter_all {A} (P : A → Prop) `{!∀ x, Decision (P x)} (l : list A) :
  (∀ x, x ∈ l → P x) → filter P l = l.
Proof.
  induction l as [|x l IH]; intros Hall; [done|].
  rewrite filter_cons, decide_True by (apply Hall, elem_of_cons; by left).
  f_equal. apply IH. intros y Hy. apply Hall, elem_of_cons. by right.
Qed.

(** X8.  The pruner is idempotent on a table whose column names are
    distinct: a column it keeps is kept again. *)
Theorem remove_constant_columns_idempotent df :
  NoDup (columns df) →
  remove_constant_columns (remove_constant_columns df)
  = remove_constant_columns df.
Proof.
  intros Hnd.
  assert (Hnd' : NoDup (columns (remove_constant_columns df))).
  { eapply sublist_NoDup; [exact Hnd|].
    unfold columns, remove_constant_columns, drop_columns. simpl.
    apply fmap_sublist, sublist_filter. }
  unfold remove_constant_columns at 1. unfold drop_columns.
  destruct (remove_constant_columns df) as [idx dat] eqn:Hdf. simpl. f_equal.
  apply filter_all. intros [col cells] Hc. simpl.
  rewrite elem_of_constant_columns. intros [_ Hconst].
  assert (Hc' : (col, cells) ∈ data (remove_constant_columns df))
    by by rewrite Hdf.
  apply elem_of_remove_constant_columns in Hc' as [Hin Hnc]. simpl in Hnc.
  unfold is_constant in Hconst, Hnc. simpl in Hconst.
  rewrite (dict_get_elem_of col cells (data df)) in Hnc by done.
  unfold columns in Hnd'. simpl in Hnd'.
  rewrite (dict_get_elem_of col cells dat) in Hconst by done.
  congruence.
Qed.

(** X9.  A table without rows loses no column: the set of string forms of
    an empty column has no element, not one. *)
Theorem remove_constant_columns_no_rows df :
  aligned df → nrows df = 0%nat → remove_constant_columns df = df.
Proof.
  intros Hal Hrows. destruct df as [idx dat].
  unfold remove_constant_columns, drop_columns. simpl. f_equal.
  apply filter_all. intros c Hc. rewrite elem_of_constant_columns.
  intros [Hcol Hconst]. unfold is_constant in Hconst. simpl in Hconst.
  destruct (dict_get c.1 dat) as [cells|] eqn:Hget; [|done]. simpl in Hget.
  apply dict_get_Some_elem_of in Hget. specialize (Hal _ Hget).
  simpl in Hal. rewrite Hrows in Hal. destruct cells; [|done].
  apply bool_decide_eq_true in Hconst. unfold unique_str_values in Hconst.
  rewrite fmap_nil, list_to_set_nil, size_empty in Hconst. done.
Qed.

End PrunerMore.

(** ** The mapper and the renaming *)

Section MapperMore.
Context `{PyFloat}.

Lemma dict_get_foldl_set {V} (f : str → V) (l : list str) (m : list (str * V)) k :
  dict_get k (foldl (λ acc c, dict_set c (f c) acc) m l)
  = if decide (k ∈ l) then Some (f k) else dict_get k m.
Proof.
  revert m. induction l as [|c l IH]; intros m.
  - cbn [foldl]. rewrite decide_False; [done | apply not_elem_of_nil].
  - cbn [foldl]. rewrite IH, dict_get_set.
    destruct (decide (k ∈ l)) as [Hin|Hnin],
             (decide (k ∈ c :: l)) as [Hin'|Hnin'],
             (decide (c = k)) as [->|Hne];
      try done; exfalso;
      first [ apply Hnin', elem_of_cons; by right
            | apply Hnin', elem_of_cons; by left
            | apply elem_of_cons in Hin' as [->|?]; done ].
Qed.

(** X10.  The mapper maps every column name to its title, and renaming
    with it gives the table with every name replaced by its title: the
    labels, the cells and the order of the columns stay. *)
Theorem rename_with_mapper df :
  (∀ col, dict_get col (get_columns_mapper df)
          = if decide (col ∈ columns df) then Some (column_title col) else None)
  ∧ rename_columns (get_columns_mapper df) df
    = {| index := index df;
         data := (λ c, (column_title c.1, c.2)) <$> data df |}.
Proof.
  assert (Hget : ∀ col, dict_get col (get_columns_mapper df)
            = if decide (col ∈ columns df) then Some (column_title col) else None).
  { intros col. unfold get_columns_mapper. by rewrite dict_get_foldl_set. }
  split; [done|]. unfold rename_columns. f_equal.
  apply Forall_fmap_ext_1, Forall_forall. intros c Hc.
  rewrite Hget, decide_True; [done|].
  apply list_elem_of_fmap. by exists c.
Qed.

End MapperMore.

(** ** Titles of ASCII names *)

Section TitlesMore.

Lemma replace_from_single a b s :
  replace_from [a] [b] s = (λ c, if decide (c = a) then b else c) <$> s.
Proof.
  funelim (replace_from [a] [b] s); simp replace_from; try done.
  - match goal with
    | Hp : strip_prefix _ _ = None |- _ => pose proof Hp as Hnone
    end.
    simpl in Hnone. rewrite fmap_cons. f_equal; [|done].
    destruct (N.eqb_spec a c); [done|].
    by rewrite decide_False by congruence.
  - match goal with
    | Hp : strip_prefix _ _ = Some _ |- _ =>
        pose proof (strip_prefix_Some _ _ _ Hp) as Heq
    end.
    simpl in Heq. injection Heq as -> ->.
    rewrite fmap_cons, decide_True by done. simpl. f_equal. done.
Qed.

Lemma separators_spaced col :
  str_replace (str_replace col (py "/") (py " ")) (py "_") (py " ") = spaced col.
Proof.
  unfold str_replace. change (py "/") with [47%N]. change (py "_") with [95%N].
  change (py " ") with [32%N]. cbv match.
  rewrite !replace_from_single, <- list_fmap_compose. unfold spaced.
  apply Forall_fmap_ext_1, Forall_forall. intros c _. unfold compose.
  repeat case_decide; subst; try done; try lia; exfalso; tauto.
Qed.

Lemma column_title_spaced col :
  column_title col
  = replace_from (py "Nn") (py "NN")
      (replace_from (py "Lr") (py "LR") (str_title (spaced col))).
Proof. unfold column_title. by rewrite separators_spaced. Qed.

Lemma spaced_no_separator col : no_separator (spaced col).
Proof.
  unfold spaced, no_separator.
  split; intros Hin; apply list_elem_of_fmap in Hin as (c & Hc & _);
    destruct (decide (c = 47%N ∨ c = 95%N)) as [?|Hn]; try done;
    apply Hn; auto.
Qed.

Lemma spaced_ascii col : is_ascii_str col → is_ascii_str (spaced col).
Proof.
  unfold spaced, is_ascii_str. intros Ha. apply Forall_fmap.
  eapply Forall_impl; [exact Ha|]. intros c Hc. simpl.
  destruct (decide (c = 47%N ∨ c = 95%N)); [lia | done].
Qed.

Lemma spaced_id col : no_separator col → spaced col = col.
Proof.
  intros [H1 H2]. unfold spaced. rewrite <- (list_fmap_id col) at 2.
  apply Forall_fmap_ext_1, Forall_forall. intros c Hc.
  rewrite decide_False; [done|]. intros [->| ->]; done.
Qed.

(** The title keeps the letters up to case. *)
Lemma column_title_skeleton col :
  is_ascii_str col →
  is_ascii_str (column_title col)
  ∧ skeleton (column_title col) = skeleton (spaced col).
Proof.
  intros Ha. rewrite column_title_spaced.
  destruct (title_from_ascii false (spaced col) (spaced_ascii col Ha)) as [Hta Hts].
  split.
  - apply replace_from_ascii; [by repeat constructor|].
    apply replace_from_ascii; [by repeat constructor | done].
  - by rewrite !replace_from_skeleton.
Qed.

Lemma column_title_by_skeleton a b :
  is_ascii_str a → is_ascii_str b →
  skeleton (spaced a) = skeleton (spaced b) →
  column_title a = column_title b.
Proof.
  intros Ha Hb Heq. rewrite !column_title_spaced. unfold str_title.
  by rewrite (title_from_skeleton false (spaced a) (spaced b))
    by auto using spaced_ascii.
Qed.

(** X11.  The title of an ASCII name has no path separator and no
    underscore, has the length of the name, and differs from the name
    only by spaces in the place of separators and by the case of
    letters. *)
Theorem column_title_shape col :
  is_ascii_str col →
  no_separator (column_title col)
  ∧ length (column_title col) = length col
  ∧ skeleton (column_title col) = skeleton (spaced col).
Proof.
  intros Ha. destruct (column_title_skeleton col Ha) as [_ Hs].
  split; [|split; [|done]].
  - apply (no_separator_skeleton (spaced col)); [done|].
    apply spaced_no_separator.
  - apply (f_equal length) in Hs. unfold skeleton, spaced in Hs.
    by rewrite !length_fmap in Hs.
Qed.

(** X12.  The mapping is idempotent on every ASCII name, with or without
    separators. *)
Theorem column_title_idempotent_ascii col :
  is_ascii_str col → column_title (column_title col) = column_title col.
Proof.
  intros Ha. destruct (column_title_skeleton col Ha) as [Hta Hs].
  apply column_title_by_skeleton; [done | done |].
  rewrite spaced_id; [done|].
  apply (no_separator_skeleton (spaced col)); [done|].
  apply spaced_no_separator.
Qed.

(** X13.  Two ASCII names have the same title exactly when they are equal
    up to the case of letters and the choice of "/", "_" or a space as
    separator: such columns get the same header. *)
Theorem column_title_collision a b :
  is_ascii_str a → is_ascii_str b →
  (column_title a = column_title b
   ↔ skeleton (spaced a) = skeleton (spaced b)).
Proof.
  intros Ha Hb. split.
  - intros Heq. destruct (column_title_skeleton a Ha) as [_ <-].
    destruct (column_title_skeleton b Hb) as [_ <-]. by rewrite Heq.
  - by apply column_title_by_skeleton.
Qed.

End TitlesMore.

(** ** [nlargest] with a limit that covers the table *)

Section NlargestMore.
Context `{PyFloat}.

Lemma select_seq {A} (l : list A) : select (seq 0 (length l)) l = l.
Proof.
  unfold select.
  assert (Hgen : ∀ (l pre : list A),
    omap (λ i, (pre ++ l) !! i) (seq (length pre) (length l)) = l).
  { clear l. induction l as [|x l IH]; intros pre; [done|].
    cbn [length seq].
    change (omap (λ i, (pre ++ x :: l) !! i)
              (length pre :: seq (S (length pre)) (length l)))
      with (match (pre ++ x :: l) !! length pre with
            | Some y => y :: omap (λ i, (pre ++ x :: l) !! i)
                               (seq (S (length pre)) (length l))
            | None => omap (λ i, (pre ++ x :: l) !! i)
                        (seq (S (length pre)) (length l))
            end).
    rewrite list_lookup_middle by done. f_equal.
    specialize (IH (pre ++ [x])). rewrite length_app in IH. simpl in IH.
    rewrite Nat.add_1_r, <- app_assoc in IH. exact IH. }
  apply (Hgen l []).
Qed.

Lemma select_all {A} (positions : list nat) (l : list A) :
  positions ≡ₚ seq 0 (length l) → select positions l ≡ₚ l.
Proof.
  intros Hp. rewrite <- (select_seq l) at 2. unfold select. by rewrite Hp.
Qed.

(** X14.  When the limit is at least the number of rows, [nlargest] on a
    numeric column returns all the rows of the table, moved as whole rows:
    the labels and every column are those of the table in another
    order. *)
Theorem nlargest_all_rows n column df cells :
  aligned df →
  dict_get column (data df) = Some cells →
  column_dtype cells ≠ Object →
  (nrows df ≤ Z.to_nat n)%nat →
  ∃ positions,
    positions ≡ₚ seq 0 (nrows df)
    ∧ nlargest n column df = Ok (take_rows positions df)
    ∧ index (take_rows positions df) ≡ₚ index df
    ∧ Forall2 (λ c c', c'.1 = c.1 ∧ c'.2 ≡ₚ c.2)
        (data df) (data (take_rows positions df)).
Proof.
  intros Hal Hget Hdt Hn.
  set (leb := cell_leb (column_dtype cells)).
  assert (Hlen : length cells = nrows df).
  { apply (Hal (column, cells)). by apply dict_get_Some_elem_of. }
  destruct (rank_desc_spec leb (cell_leb_total _) (cell_leb_trans _) cells)
    as [Hperm _].
  rewrite Hlen in Hperm.
  exists (rank_desc leb cells). split; [done|]. split; [|split].
  - assert (Hl : length (rank_desc leb cells) ≤ Z.to_nat n).
    { by rewrite (Permutation_length Hperm), length_seq. }
    unfold nlargest, df_col, dict_item. rewrite Hget. simpl.
    unfold leb in *. destruct (column_dtype cells); try done;
      by rewrite take_ge.
  - unfold take_rows. simpl. by apply select_all.
  - unfold take_rows. simpl. apply Forall2_fmap_r, Forall_Forall2_diag.
    apply Forall_forall. intros c Hc. simpl. split; [done|].
    apply select_all. by rewrite (Hal c Hc).
Qed.

End NlargestMore.

(** ** The rounding stage, column by column *)

Section RoundingMore.
Context `{PyFloat}.

Local Abbreviation round_step :=
  (λ (acc : result DataFrame) col, df ← acc; round_column df col).

Lemma round_fold_Raise e (cols : list str) :
  foldl round_step (Raise e) cols = Raise e.
Proof. induction cols as [|c cols IH]; [done | apply IH]. Qed.

(** X15.  The chain of the rounding stage: a name without marker is given
    no decimals and its column is not read; with a marker, the cell at
    label 0 is read once, an error of that read is the error of the chain,
    a cell that is not a float gives no decimals whatever the markers, and
    a float gives the decimals of the first marker found, in the order
    accuracy, f1_score, lr (in the name as written), ssim, psnr, sam,
    ergas, timestamp (in the lower-cased name). *)
Theorem round_decimals_cases col :
  (first_marker col = None → ∀ first, round_decimals col first = Ok None)
  ∧ (∀ v, is_float v = false → round_decimals col (Ok v) = Ok None)
  ∧ (∀ v, is_float v = true → round_decimals col (Ok v) = Ok (first_marker col))
  ∧ (∀ e, first_marker col ≠ None → round_decimals col (Raise e) = Raise e).
Proof.
  split; [|split; [|split]].
  - intros Hm first. by rewrite round_decimals_first_marker, Hm.
  - intros v Hv. rewrite round_decimals_first_marker.
    destruct (first_marker col); simpl; [by rewrite Hv | done].
  - intros v Hv. rewrite round_decimals_first_marker.
    destruct (first_marker col); simpl; [by rewrite Hv | done].
  - intros e Hm. rewrite round_decimals_first_marker.
    by destruct (first_marker col).
Qed.

Lemma series_at_missing (labels : list nat) (cells : list Value) :
  0%nat ∉ labels → series_at labels cells 0 = Raise (KeyError_label 0).
Proof.
  intros Hn. unfold series_at.
  destruct (list_find (λ l, l = 0%nat) labels) as [[i l]|] eqn:Hf; [|done].
  apply list_find_Some in Hf as (Hi & -> & _).
  exfalso. apply Hn. by eapply list_elem_of_lookup_2.
Qed.

Lemma round_fold_missing_label df (cols : list str) :
  0%nat ∉ index df →
  (∀ c, c ∈ cols → c ∈ columns df) →
  (∃ c, c ∈ cols ∧ first_marker c ≠ None) →
  foldl round_step (Ok df) cols = Raise (KeyError_label 0).
Proof.
  intros Hlabel. induction cols as [|c cols IH]; intros Hsub (m & Hm & Hmark).
  - by apply elem_of_nil in Hm.
  - cbn [foldl]. simpl.
    destruct (first_marker c) as [d|] eqn:Hc.
    + unfold round_column. rewrite round_decimals_first_marker, Hc.
      destruct (dict_get_column df c) as [cells Hcells].
      { apply Hsub, elem_of_cons. by left. }
      unfold df_col, dict_item. rewrite Hcells. simpl.
      rewrite series_at_missing by done. simpl. apply round_fold_Raise.
    + rewrite round_column_no_marker by done. apply IH.
      * intros c' Hc'. apply Hsub, elem_of_cons. by right.
      * exists m. split; [|done].
        apply elem_of_cons in Hm as [->|Hm]; [congruence | done].
Qed.

(** X16.  When no row of the table carries the label 0 and the name of
    some column contains a marker, the rounding stage raises [KeyError]
    for the label 0: the cell it tests is [df[col][0]], looked up by
    label. *)
Theorem round_columns_missing_label df col :
  0%nat ∉ index df →
  col ∈ columns df → first_marker col ≠ None →
  round_columns df = Raise (KeyError_label 0).
Proof.
  intros Hlabel Hcol Hmark. unfold round_columns.
  apply round_fold_missing_label; [done | done |]. by exists col.
Qed.

(** X18.  A table none of whose column names contains a marker goes
    through the rounding stage unchanged, whatever its labels and
    cells. *)
Theorem round_columns_no_marker df :
  (∀ col, col ∈ columns df → first_marker col = None) →
  round_columns df = Ok df.
Proof.
  unfold round_columns. generalize (columns df) as cols.
  induction cols as [|c cols IH]; intros Hn; [done|].
  cbn [foldl]. simpl.
  rewrite round_column_no_marker by (apply Hn, elem_of_cons; by left).
  apply IH. intros c' Hc'. apply Hn, elem_of_cons. by right.
Qed.

Lemma dict_get_app_notin {V} k (d1 d2 : list (str * V)) :
  k ∉ d1.*1 → dict_get k (d1 ++ d2) = dict_get k d2.
Proof.
  induction d1 as [|[k1 v1] d1 IH]; intros Hn; [done|].
  simpl in *. apply not_elem_of_cons in Hn as [Hne Hn].
  rewrite decide_False by done. by apply IH.
Qed.

Lemma set_col_middle idx (done_ todo : list (str * list Value)) col cells cells' :
  NoDup ((done_ ++ (col, cells) :: todo).*1) →
  set_col col cells' {| index := idx; data := done_ ++ (col, cells) :: todo |}
  = {| index := idx; data := done_ ++ (col, cells') :: todo |}.
Proof.
  intros Hnd. unfold set_col. simpl. f_equal.
  rewrite fmap_app, fmap_cons in Hnd.
  apply NoDup_app in Hnd as (_ & Hdis & Hnd).
  apply NoDup_cons in Hnd as [Hcol _]. simpl in *.
  rewrite fmap_app, fmap_cons. simpl. rewrite decide_True by done.
  f_equal; [|f_equal].
  - rewrite <- (list_fmap_id done_) at 2.
    apply Forall_fmap_ext_1, Forall_forall. intros c Hc.
    rewrite decide_False; [done|]. intros Heq.
    apply (Hdis col); [|apply elem_of_cons; by left].
    apply list_elem_of_fmap. by exists c.
  - rewrite <- (list_fmap_id todo) at 2.
    apply Forall_fmap_ext_1, Forall_forall. intros c Hc.
    rewrite decide_False; [done|]. intros Heq.
    apply Hcol. apply list_elem_of_fmap. by exists c.
Qed.

Lemma round_column_middle idx (done_ todo : list (str * list Value)) c :
  NoDup ((done_ ++ c :: todo).*1) →
  round_column {| index := idx; data := done_ ++ c :: todo |} c.1
  = (c' ← round_entry idx c;
     Ok {| index := idx; data := done_ ++ c' :: todo |}).
Proof.
  intros Hnd. destruct c as [col cells].
  assert (Hget : dict_get col (done_ ++ (col, cells) :: todo) = Some cells).
  { rewrite dict_get_app_notin.
    - simpl. by rewrite decide_True.
    - rewrite fmap_app, fmap_cons in Hnd.
      apply NoDup_app in Hnd as (_ & Hdis & _). intros Hin.
      apply (Hdis col Hin). apply elem_of_cons. by left. }
  unfold round_column, round_entry, df_col, dict_item. simpl.
  rewrite round_decimals_first_marker, Hget. simpl.
  destruct (first_marker col) as [d|]; [|done]. simpl.
  destruct (series_at idx cells 0) as [v|e]; [|done]. simpl.
  destruct (is_float v); [|done]. simpl.
  destruct (series_round d cells) as [rounded|e]; [|done]. simpl.
  by rewrite set_col_middle.
Qed.

Lemma round_entry_Ok labels c c' :
  round_entry labels c = Ok c' →
  c'.1 = c.1
  ∧ (c'.2 = c.2
     ∨ ∃ d, first_marker c.1 = Some d ∧ c'.2 = round_value d <$> c.2).
Proof.
  unfold round_entry. destruct (first_marker c.1) as [d|]; [|by intros [= <-]; auto].
  destruct (series_at labels c.2 0) as [v|e]; [|done]. simpl.
  destruct (is_float v); [|by intros [= <-]; auto].
  unfold series_round. destruct (column_dtype c.2); simpl; try done;
    intros [= <-]; simpl; eauto.
Qed.

(** X17.  On a table whose column names are distinct the rounding stage
    treats every column on its own: its outcome is that of rounding each
    column alone, in order, the first error being the error of the stage.
    When it returns a table, the labels, the names and the order of the
    columns are those of the input, and every column is either unchanged
    or rounded, cell by cell, to the decimals of its first marker. *)
Theorem round_columns_by_column df :
  NoDup (columns df) →
  round_columns df
  = (rounded ← mapM (round_entry (index df)) (data df);
     Ok {| index := index df; data := rounded |})
  ∧ ∀ df', round_columns df = Ok df' →
      index df' = index df
      ∧ columns df' = columns df
      ∧ Forall2 (λ c c',
           c'.1 = c.1
           ∧ (c'.2 = c.2
              ∨ ∃ d, first_marker c.1 = Some d
                     ∧ c'.2 = round_value d <$> c.2))
          (data df) (data df').
Proof.
  intros Hnd.
  assert (Hfold : ∀ (todo done_ : list (str * list Value)),
    NoDup ((done_ ++ todo).*1) →
    foldl round_step (Ok {| index := index df; data := done_ ++ todo |}) (todo.*1)
    = (rounded ← mapM (round_entry (index df)) todo;
       Ok {| index := index df; data := done_ ++ rounded |})).
  { induction todo as [|c todo IH]; intros done_ Hnd'; [done|].
    cbn [fmap list_fmap foldl mapM]. simpl.
    rewrite round_column_middle by done.
    destruct (round_entry (index df) c) as [c'|e] eqn:Hc; simpl.
    - destruct (round_entry_Ok _ _ _ Hc) as [Hname _].
      specialize (IH (done_ ++ [c'])). rewrite <- !app_assoc in IH. simpl in IH.
      rewrite IH.
      + destruct (mapM (round_entry (index df)) todo); simpl; [|done].
        by rewrite <- app_assoc.
      + rewrite fmap_app, fmap_cons, Hname.
        by rewrite fmap_app, fmap_cons in Hnd'.
    - apply round_fold_Raise. }
  assert (Heq : round_columns df
    = (rounded ← mapM (round_entry (index df)) (data df);
       Ok {| index := index df; data := rounded |})).
  { unfold round_columns, columns. destruct df as [idx dat]. simpl in *.
    apply (Hfold dat []). exact Hnd. }
  split; [exact Heq|].
  intros df' Hdf'. rewrite Heq in Hdf'.
  destruct (mapM (round_entry (index df)) (data df)) as [rounded|e] eqn:Hm;
    [|done].
  simpl in Hdf'. injection Hdf' as <-. simpl.
  assert (Hall : ∀ (l l' : list (str * list Value)),
    mapM (round_entry (index df)) l = Ok l' →
    Forall2 (λ c c',
       c'.1 = c.1
       ∧ (c'.2 = c.2
          ∨ ∃ d, first_marker c.1 = Some d ∧ c'.2 = round_value d <$> c.2))
      l l').
  { induction l as [|c l IH]; intros l' Hl; simpl in Hl.
    - injection Hl as <-. constructor.
    - destruct (round_entry (index df) c) as [c'|] eqn:Hc; [|done]. simpl in Hl.
      destruct (mapM (round_entry (index df)) l) as [k|]; [|done]. simpl in Hl.
      injection Hl as <-. constructor; [by eapply round_entry_Ok | by apply IH]. }
  specialize (Hall _ _ Hm). split; [done|]. split; [|done].
  unfold columns. simpl. clear -Hall.
  induction Hall as [|c c' l l' [Hn _] _ IH]; [done|].
  rewrite !fmap_cons. by f_equal.
Qed.

End RoundingMore.

(** ** The pipeline: what ends it and what it writes *)

Section MainMore.
Context `{PyFloat}.
Variable api_runs : str → list Run.
Variable sort_values_descending : list str → DataFrame → result DataFrame.

Local Abbreviation table_of opt :=
  (filter_runs (Some (group_filter opt)) (Some (jt_filter opt))
     (config_filter opt) (results_filter opt) (include_timestamp opt)
     (api_runs (project opt))).

(** X19.  [main] changes no file but the one named by [save_file], and no
    file at all when the pipeline raises; a matching run that lacks a key
    ends [main] with [KeyError] and the files as they were. *)
Theorem main_writes_one_file_or_none opt files :
  (∀ path, path ≠ save_file opt →
     (main api_runs sort_values_descending opt files).1 !! path = files !! path)
  ∧ (∀ e, (main api_runs sort_values_descending opt files).2 = Raise e →
       (main api_runs sort_values_descending opt files).1 = files)
  ∧ ((∃ run, run ∈ api_runs (project opt)
             ∧ run_matches (Some (group_filter opt)) (Some (jt_filter opt)) run
               = true
             ∧ keys_present (config_filter opt) (results_filter opt)
                 (include_timestamp opt) run = false) →
     ∃ k, main api_runs sort_values_descending opt files
          = (files, Raise (KeyError k))).
Proof.
  split; [|split].
  - intros path Hpath. unfold main.
    destruct (report api_runs sort_values_descending opt); simpl; [|done].
    by rewrite lookup_insert_ne.
  - intros e. unfold main.
    by destruct (report api_runs sort_values_descending opt).
  - intros Hex. apply filter_runs_KeyError in Hex as [k Hk].
    exists k. unfold main, report. by rewrite Hk.
Qed.

(** X20.  Without a sort, a best metric that is not a column of the table
    of [filter_runs] (it was not copied, or the prune mode removed it)
    ends [main] with [KeyError] for that name, and nothing is written. *)
Theorem best_metric_not_a_column opt files df :
  sort_by opt = [] → best_metric opt ≠ [] →
  table_of opt = Ok df →
  best_metric opt ∉ columns df →
  main api_runs sort_values_descending opt files
  = (files, Raise (KeyError (best_metric opt))).
Proof.
  intros Hsort Hbest Hdf Hcol. unfold main, report.
  rewrite Hdf, Hsort. simpl.
  destruct (best_metric opt) as [|b bs] eqn:Hb; [done|]. rewrite <- Hb in *.
  unfold nlargest, df_col, dict_item.
  apply dict_get_None in Hcol. by rewrite Hcol.
Qed.

(** X21.  Without a sort, when the rows [nlargest] keeps do not include
    the row labelled 0 (the first row of [filter_runs]) and the name of a
    column contains a marker, [main] ends with [KeyError] for the label 0
    and nothing is written. *)
Theorem best_rows_without_first_row opt files df top col :
  sort_by opt = [] → best_metric opt ≠ [] →
  table_of opt = Ok df →
  nlargest (n_largest opt) (best_metric opt) df = Ok top →
  0%nat ∉ index top →
  col ∈ columns top → first_marker col ≠ None →
  main api_runs sort_values_descending opt files
  = (files, Raise (KeyError_label 0)).
Proof.
  intros Hsort Hbest Hdf Htop Hlabel Hcol Hmark. unfold main, report.
  rewrite Hdf, Hsort. simpl.
  destruct (best_metric opt) as [|b bs] eqn:Hb; [done|]. rewrite <- Hb in *.
  rewrite Htop. simpl. unfold round_columns.
  rewrite (round_fold_missing_label top (columns top)); [done | done | done |].
  by exists col.
Qed.

End MainMore.

(** ** Concrete inputs for the further properties *)

(** ** The runs taken by the filters *)

Section Inclusion.
Context `{PyFloat}.
Implicit Types (gf jf : option str) (cf rf : list str) (ts : bool).

Local Abbreviation row := (list (str * Value)).

Lemma run_matches_iff gf jf run :
  run_matches gf jf run = true ↔
  (group run = gf ∨ gf = Some []) ∧ (job_type run = jf ∨ jf = Some []).
Proof.
  unfold run_matches.
  by rewrite andb_true_iff, !orb_true_iff, !bool_decide_eq_true.
Qed.

Lemma taken_and_passing gf jf rf (runs : list Run) :
  filter (λ run, ((group run = gf ∨ gf = Some [])
                  ∧ (job_type run = jf ∨ jf = Some []))
                 ∧ passes_results rf run = true) runs
  = filter (λ run, run_matches gf jf run && passes_results rf run = true) runs.
Proof.
  apply list_filter_iff. intros run.
  by rewrite andb_true_iff, run_matches_iff.
Qed.

(** The loop appends the rows of the matching runs that pass, in order. *)
Lemma filter_loop_rows gf jf cf rf ts runs output out :
  filter_loop gf jf cf rf ts runs output = Ok out →
  ∃ out', out = output ++ out' ∧
    Forall2 (λ run r, run_row cf rf ts run = Ok (Some r))
      (filter (λ run, run_matches gf jf run && passes_results rf run = true) runs)
      out'.
Proof.
  revert output. induction runs as [|run runs IH]; intros output Hl.
  - simpl in Hl. injection Hl as <-. exists []. by rewrite app_nil_r.
  - rewrite filter_cons. simpl in Hl.
    destruct (run_matches gf jf run) eqn:Hm; [|rewrite decide_False by done; by apply IH].
    destruct (run_row cf rf ts run) as [[r|]|e] eqn:Hr; simpl in Hl; [| |done].
    + rewrite decide_True by by rewrite (run_row_Some _ _ _ _ _ Hr).
      destruct (IH _ Hl) as (out' & -> & Hf).
      exists (r :: out'). rewrite <- app_assoc. split; [done|]. by constructor.
    + rewrite decide_False by by rewrite (run_row_None _ _ _ _ Hr).
      by apply IH.
Qed.

(** An exception of the loop is the exception of the row of a matching
    run. *)
Lemma filter_loop_Raise_run gf jf cf rf ts runs output e :
  filter_loop gf jf cf rf ts runs output = Raise e →
  ∃ run, run ∈ runs ∧ run_matches gf jf run = true
         ∧ run_row cf rf ts run = Raise e.
Proof.
  revert output. induction runs as [|run runs IH]; intros output; simpl; [done|].
  assert (Htl : ∀ out, filter_loop gf jf cf rf ts runs out = Raise e →
            ∃ run', run' ∈ run :: runs ∧ run_matches gf jf run' = true
                    ∧ run_row cf rf ts run' = Raise e).
  { intros out Hl. destruct (IH _ Hl) as (r & Hr & Hm & Hrow).
    exists r. split; [apply elem_of_cons; by right | done]. }
  destruct (run_matches gf jf run) eqn:Hm; [|apply Htl].
  destruct (run_row cf rf ts run) as [[r|]|e'] eqn:Hr; simpl; try apply Htl.
  intros [= <-]. exists run. split; [apply elem_of_cons; by left | done].
Qed.

Lemma run_matches_None_group jf run :
  group run ≠ None → run_matches None jf run = false.
Proof.
  intros Hg. unfold run_matches.
  rewrite (bool_decide_eq_false_2 (group run = None)) by done.
  by rewrite (bool_decide_eq_false_2 (None = Some [])) by done.
Qed.

Lemma run_matches_None_job_type gf run :
  job_type run ≠ None → run_matches gf None run = false.
Proof.
  intros Hj. unfold run_matches.
  rewrite (bool_decide_eq_false_2 (job_type run = None)) by done.
  rewrite (bool_decide_eq_false_2 (None = Some [])) by done.
  apply andb_false_r.
Qed.

(** C3.  The runs [filter_runs] takes are those whose group equals the
    group filter, or the group filter is the empty string, and whose job
    type equals the job-type filter, or that filter is the empty string:
    the rows of the table are the rows of these runs (of those that pass
    the results filter), one per run and in order, and the other runs
    give no row; an exception is that of the row of such a run.  With
    both filters the empty string every run is taken.  A filter that is
    [None], the default of the two parameters, is not ignored, though the
    docstring says so: it is compared like a name, so that a run list
    where every run has a group, or every run a job type, ends in the
    no-match error. *)
Theorem none_filter_not_ignored gf jf cf rf ts runs :
  match filter_runs gf jf cf rf ts runs with
  | Ok df =>
      ∃ output,
        Forall2 (λ run r, run_row cf rf ts run = Ok (Some r))
          (filter (λ run, ((group run = gf ∨ gf = Some [])
                           ∧ (job_type run = jf ∨ jf = Some []))
                          ∧ passes_results rf run = true) runs)
          output
        ∧ df = if prune_mode cf then remove_constant_columns (pd_DataFrame output)
               else pd_DataFrame output
  | Raise NoRunsFound =>
      filter (λ run, ((group run = gf ∨ gf = Some [])
                      ∧ (job_type run = jf ∨ jf = Some []))
                     ∧ passes_results rf run = true) runs = []
  | Raise e =>
      ∃ run, run ∈ runs
             ∧ ((group run = gf ∨ gf = Some [])
                ∧ (job_type run = jf ∨ jf = Some []))
             ∧ run_row cf rf ts run = Raise e
  end
  ∧ match filter_runs (Some []) (Some []) cf [] ts runs with
    | Ok df =>
        ∃ output,
          Forall2 (λ run r, run_row cf [] ts run = Ok (Some r)) runs output
          ∧ df = if prune_mode cf then remove_constant_columns (pd_DataFrame output)
                 else pd_DataFrame output
    | Raise NoRunsFound => runs = []
    | Raise e => ∃ run, run ∈ runs ∧ run_row cf [] ts run = Raise e
    end
  ∧ ((∀ run, run ∈ runs → group run ≠ None) →
     filter_runs None jf cf rf ts runs = Raise NoRunsFound)
  ∧ ((∀ run, run ∈ runs → job_type run ≠ None) →
     filter_runs gf None cf rf ts runs = Raise NoRunsFound).
Proof.
  assert (Hgen : ∀ g j f,
    match filter_runs g j cf f ts runs with
    | Ok df =>
        ∃ output,
          Forall2 (λ run r, run_row cf f ts run = Ok (Some r))
            (filter (λ run, run_matches g j run && passes_results f run = true) runs)
            output
          ∧ df = if prune_mode cf then remove_constant_columns (pd_DataFrame output)
                 else pd_DataFrame output
    | Raise NoRunsFound =>
        filter (λ run, run_matches g j run && passes_results f run = true) runs = []
    | Raise e =>
        ∃ run, run ∈ runs ∧ run_matches g j run = true
               ∧ run_row cf f ts run = Raise e
    end).
  { intros g j f. rewrite filter_runs_unfold.
    destruct (filter_loop g j cf f ts runs []) as [out|e] eqn:Hl.
    - destruct (filter_loop_rows _ _ _ _ _ _ _ _ Hl) as (out' & -> & Hf).
      simpl. destruct out' as [|r out'].
      + by apply Forall2_nil_inv_r in Hf.
      + by exists (r :: out').
    - pose proof (filter_loop_Raise_run _ _ _ _ _ _ _ _ Hl) as Hrun.
      destruct (filter_loop_Raise _ _ _ _ _ _ _ _ Hl) as [(k & -> & _) _].
      exact Hrun. }
  split; [|split; [|split]].
  - specialize (Hgen gf jf rf). rewrite taken_and_passing.
    destruct (filter_runs gf jf cf rf ts runs) as [df|e]; [done|].
    destruct e; try done;
      destruct Hgen as (run & Hin & Hm & Hr); exists run;
      (split; [done|]); (split; [by apply run_matches_iff | done]).
  - specialize (Hgen (Some []) (Some []) []).
    rewrite (filter_all _ runs) in Hgen.
    2:{ intros run _. simpl. apply andb_true_iff. split; [|done].
        apply run_matches_iff. split; by right. }
    destruct (filter_runs (Some []) (Some []) cf [] ts runs) as [df|e]; [done|].
    destruct e; try done;
      destruct Hgen as (run & Hin & _ & Hr); by exists run.
  - intros Hg. rewrite filter_runs_unfold, filter_loop_no_match; [done|].
    intros run Hin. by apply run_matches_None_group, Hg.
  - intros Hj. rewrite filter_runs_unfold, filter_loop_no_match; [done|].
    intros run Hin. by apply run_matches_None_job_type, Hj.
Qed.

End Inclusion.

(** ** The config keys of a row *)

Section ConfigRows.
Context `{PyFloat}.
Implicit Types (cf rf : list str) (ts : bool) (conf rp : list (str * Value)).

Local Abbreviation row := (list (str * Value)).




End ConfigRows.

Module ConcreteMore.
Import Examples MoreExamples.

Ltac by_decide := apply (bool_decide_unpack _); vm_compute; exact I.

Ltac each_elem H :=
  repeat (apply elem_of_cons in H as [->|H]);
  [.. | by apply elem_of_nil in H].

Lemma underscore_key_raises_witness :
  selects_named [py "_wandb"] = true
  ∧ py "_wandb" ∈ [py "_wandb"]
  ∧ str_startswith (py "_wandb") (py "_") = true
  ∧ run_a1 ∈ runs
  ∧ run_matches (Some (py "A")) (Some []) run_a1 = true
  ∧ ∃ k, filter_runs (Some (py "A")) (Some []) [py "_wandb"] [] false runs
         = Raise (KeyError k).
Proof.
  assert (H1 : selects_named [py "_wandb"] = true) by reflexivity.
  assert (H2 : py "_wandb" ∈ [py "_wandb"]) by (apply elem_of_cons; by left).
  assert (H3 : str_startswith (py "_wandb") (py "_") = true) by reflexivity.
  assert (H4 : run_a1 ∈ runs) by (apply elem_of_cons; by left).
  assert (H5 : run_matches (Some (py "A")) (Some []) run_a1 = true)
    by reflexivity.
  repeat (split; [assumption|]).
  exact (underscore_key_raises (Some (py "A")) (Some []) [py "_wandb"] [] false
           runs (py "_wandb") run_a1 H1 H2 H3 H4 H5).
Defined.

Lemma filter_runs_rows_in_order_witness :
  ∃ df,
    filter_runs (Some (py "A")) (Some []) [] [py "ssim"] false runs = Ok df
    ∧ ∃ output,
        Forall2 (λ run r, run_row [] [py "ssim"] false run = Ok (Some r))
          (filter (λ run, run_matches (Some (py "A")) (Some []) run
                          && passes_results [py "ssim"] run = true) runs)
          output
        ∧ df = if prune_mode [] then remove_constant_columns (pd_DataFrame output)
               else pd_DataFrame output.
Proof.
  eexists. split; [reflexivity|].
  eapply filter_runs_rows_in_order. reflexivity.
Defined.

Lemma row_precedence_witness :
  selects_named [] = false
  ∧ NoDup (dict_keys (summary run_a1))
  ∧ ∃ r, run_row [] [] false run_a1 = Ok (Some r)
         ∧ ∀ k, dict_get k r =
                match dict_get k (summary run_a1) with
                | Some v => Some v
                | None =>
                    match dict_get k (public_config run_a1) with
                    | Some v => Some v
                    | None => dict_get k (identity_fields run_a1)
                    end
                end.
Proof.
  assert (H1 : selects_named [] = false) by reflexivity.
  assert (H2 : NoDup (dict_keys (summary run_a1))) by by_decide.
  split; [exact H1|]. split; [exact H2|].
  exact (row_precedence [] false run_a1 H1 H2).
Defined.

Lemma results_filter_row_witness :
  [py "ssim"] ≠ []
  ∧ ∃ r, run_row [] [py "ssim"] true run_a1 = Ok (Some r)
         ∧ dict_get (py "timestamp") r = Some (VFloat 100000000%Z).
Proof.
  assert (H1 : [py "ssim"] ≠ ([] : list str)) by discriminate.
  split; [exact H1|].
  eexists. split; [reflexivity|].
  edestruct (results_filter_row [] [py "ssim"] true run_a1 _ H1 eq_refl)
    as (rp & _ & _ & _ & Hts).
  rewrite (Hts eq_refl). reflexivity.
Defined.

Lemma filter_runs_table_witness :
  ∃ df,
    filter_runs (Some (py "A")) (Some []) [] [py "ssim"] false runs = Ok df
    ∧ well_formed df ∧ index df = seq 0 (nrows df).
Proof.
  eexists. split; [reflexivity|].
  edestruct (filter_runs_table (Some (py "A")) (Some []) [] [py "ssim"] false
               runs _ eq_refl) as (Hwf & Hidx & _).
  split; [exact Hwf | exact Hidx].
Defined.

Lemma remove_constant_columns_idempotent_witness :
  NoDup (columns table)
  ∧ remove_constant_columns (remove_constant_columns table)
    = remove_constant_columns table.
Proof.
  assert (H1 : NoDup (columns table)) by by_decide.
  split; [exact H1|]. exact (remove_constant_columns_idempotent table H1).
Defined.

Lemma remove_constant_columns_no_rows_witness :
  aligned empty_table ∧ nrows empty_table = 0%nat
  ∧ remove_constant_columns empty_table = empty_table.
Proof.
  assert (H1 : aligned empty_table).
  { intros c Hc. unfold empty_table in Hc. simpl in Hc. each_elem Hc; reflexivity. }
  assert (H2 : nrows empty_table = 0%nat) by reflexivity.
  split; [exact H1|]. split; [exact H2|].
  exact (remove_constant_columns_no_rows empty_table H1 H2).
Defined.

Lemma column_title_shape_witness :
  is_ascii_str (py "train/lr_rate")
  ∧ no_separator (column_title (py "train/lr_rate"))
  ∧ length (column_title (py "train/lr_rate")) = length (py "train/lr_rate").
Proof.
  assert (H1 : is_ascii_str (py "train/lr_rate")) by by_decide.
  split; [exact H1|].
  destruct (column_title_shape (py "train/lr_rate") H1) as (Hs & Hl & _).
  split; [exact Hs | exact Hl].
Defined.

Lemma column_title_idempotent_ascii_witness :
  is_ascii_str (py "model_nn_type")
  ∧ column_title (column_title (py "model_nn_type"))
    = column_title (py "model_nn_type").
Proof.
  assert (H1 : is_ascii_str (py "model_nn_type")) by by_decide.
  split; [exact H1|]. exact (column_title_idempotent_ascii _ H1).
Defined.

Lemma column_title_collision_witness :
  is_ascii_str (py "val_LR") ∧ is_ascii_str (py "Val/lr")
  ∧ column_title (py "val_LR") = column_title (py "Val/lr").
Proof.
  assert (H1 : is_ascii_str (py "val_LR")) by by_decide.
  assert (H2 : is_ascii_str (py "Val/lr")) by by_decide.
  split; [exact H1|]. split; [exact H2|].
  apply (column_title_collision _ _ H1 H2). reflexivity.
Defined.

Lemma nlargest_all_rows_witness :
  aligned table
  ∧ dict_get (py "ssim") (data table) = Some ssim_cells
  ∧ column_dtype ssim_cells ≠ Object
  ∧ (nrows table ≤ Z.to_nat 5)%nat
  ∧ ∃ positions,
      positions ≡ₚ seq 0 (nrows table)
      ∧ nlargest 5 (py "ssim") table = Ok (take_rows positions table).
Proof.
  assert (Hal : aligned table).
  { intros c Hc. unfold table in Hc. simpl in Hc. each_elem Hc; reflexivity. }
  assert (Hget : dict_get (py "ssim") (data table) = Some ssim_cells)
    by reflexivity.
  assert (Hdt : column_dtype ssim_cells ≠ Object) by (vm_compute; discriminate).
  assert (Hn : (nrows table ≤ Z.to_nat 5)%nat) by (vm_compute; lia).
  split; [exact Hal|]. split; [exact Hget|]. split; [exact Hdt|].
  split; [exact Hn|].
  destruct (nlargest_all_rows 5 (py "ssim") table ssim_cells Hal Hget Hdt Hn)
    as (positions & Hp & Hnl & _).
  exists positions. split; [exact Hp | exact Hnl].
Defined.

Lemma round_columns_missing_label_witness :
  (0%nat ∉ index table_without_label_0)
  ∧ py "ssim" ∈ columns table_without_label_0
  ∧ first_marker (py "ssim") ≠ None
  ∧ round_columns table_without_label_0 = Raise (KeyError_label 0).
Proof.
  assert (H1 : 0%nat ∉ index table_without_label_0) by by_decide.
  assert (H2 : py "ssim" ∈ columns table_without_label_0) by by_decide.
  assert (H3 : first_marker (py "ssim") ≠ None) by (vm_compute; discriminate).
  split; [exact H1|]. split; [exact H2|]. split; [exact H3|].
  exact (round_columns_missing_label table_without_label_0 (py "ssim") H1 H2 H3).
Defined.

Lemma round_columns_by_column_witness :
  NoDup (columns table)
  ∧ round_columns table
    = (rounded ← mapM (round_entry (index table)) (data table);
       Ok {| index := index table; data := rounded |}).
Proof.
  assert (H1 : NoDup (columns table)) by by_decide.
  split; [exact H1|]. exact (proj1 (round_columns_by_column table H1)).
Defined.

Lemma round_columns_no_marker_witness :
  (∀ col, col ∈ columns plain_table → first_marker col = None)
  ∧ round_columns plain_table = Ok plain_table.
Proof.
  assert (H1 : ∀ col, col ∈ columns plain_table → first_marker col = None).
  { intros col Hc. unfold plain_table, columns in Hc. simpl in Hc.
    each_elem Hc; reflexivity. }
  split; [exact H1|]. exact (round_columns_no_marker plain_table H1).
Defined.

Lemma best_metric_not_a_column_witness :
  sort_by opt_best_loss = [] ∧ best_metric opt_best_loss ≠ []
  ∧ main (λ _, runs) (λ _ df, Ok df) opt_best_loss ∅
    = (∅, Raise (KeyError (py "loss"))).
Proof.
  assert (H1 : sort_by opt_best_loss = []) by reflexivity.
  assert (H2 : best_metric opt_best_loss ≠ []) by discriminate.
  split; [exact H1|]. split; [exact H2|].
  eapply (best_metric_not_a_column (λ _, runs) (λ _ df, Ok df) opt_best_loss ∅
            _ H1 H2); [reflexivity | by_decide].
Defined.

Lemma best_rows_without_first_row_witness :
  sort_by opt_best_ssim = [] ∧ best_metric opt_best_ssim ≠ []
  ∧ first_marker (py "ssim") ≠ None
  ∧ main (λ _, runs) (λ _ df, Ok df) opt_best_ssim ∅
    = (∅, Raise (KeyError_label 0)).
Proof.
  assert (H1 : sort_by opt_best_ssim = []) by reflexivity.
  assert (H2 : best_metric opt_best_ssim ≠ []) by discriminate.
  assert (H3 : first_marker (py "ssim") ≠ None) by (vm_compute; discriminate).
  split; [exact H1|]. split; [exact H2|]. split; [exact H3|].
  eapply (best_rows_without_first_row (λ _, runs) (λ _ df, Ok df) opt_best_ssim ∅
            _ _ (py "ssim") H1 H2); [reflexivity | reflexivity | by_decide
                                     | by_decide | exact H3].
Defined.

End ConcreteMore.

(** ** The filters and the config keys on the example runs *)

Module ConcreteFilters.
Import Examples.

Ltac by_decide := apply (bool_decide_unpack _); vm_compute; exact I.

(** The run "a1" of group "A" alone: with the default filters of
    [filter_runs], both [None], it is not taken and the no-match error is
    raised; with both filters the empty string it gives the one row of
    the table. *)
Lemma none_filter_not_ignored_witness :
  (∀ run, run ∈ [run_a1] → group run ≠ None)
  ∧ filter_runs None None [] [] false [run_a1] = Raise NoRunsFound
  ∧ ∃ df output,
      filter_runs (Some []) (Some []) [] [] false [run_a1] = Ok df
      ∧ Forall2 (λ run r, run_row [] [] false run = Ok (Some r)) [run_a1] output
      ∧ df = pd_DataFrame output.
Proof.
  assert (Hg : ∀ run, run ∈ [run_a1] → group run ≠ None).
  { intros run Hin. apply list_elem_of_singleton in Hin as ->. discriminate. }
  pose proof (none_filter_not_ignored None None [] [] false [run_a1])
    as (_ & Hall & Hnone & _).
  split; [exact Hg|]. split; [exact (Hnone Hg)|].
  change (filter_runs (Some []) (Some []) [] [] false [run_a1])
    with (Ok (pd_DataFrame
                [dict_update (dict_update (identity_fields run_a1)
                                (public_config run_a1)) (summary run_a1)]))
    in Hall.
  destruct Hall as (output & Hf & Hdf).
  eexists _, output. split; [reflexivity|]. split; [exact Hf | exact Hdf].
Defined.


End ConcreteFilters.
